(** * internal/conf/config.go: settings store, loader, persister, backup targets

    A shallow embedding of the configuration subsystem of BirdNET-Go
    ([internal/conf/config.go]) together with the properties its
    specification states about it.

    Conventions of the embedding.
    - Go [int] is [Z]; no function modelled here does arithmetic on one, so
      no wrap-around is involved (only comparisons with [0] and stores of
      the constants 21 and 22).
    - A Go [string] is a [string]; the [[]byte] handed to the base64
      encoder is a [list byte]; the contents of a file are a [string].
    - A [*Settings] is an [option Settings]: [None] is the nil pointer.
    - A path is the list of its components ([filepath.Join] appends a
      component, [filepath.Dir] drops the last one).
    - Struct fields that none of the modelled functions reads or writes
      (the [float64] thresholds, the audio, MQTT, RTSP ... sub-structures)
      are left out of the records; the fields kept have the source's names.
    - Functions of the package that live in other files
      ([ValidateSettings], [GetDefaultConfigPaths], [setDefaultConfig],
      [FindConfigFile], [moveFile]) and the calls into third-party
      libraries ([yaml.Marshal], [viper.Unmarshal]) are fields of an
      environment record [Env]; every theorem quantifies over it.
    - Failures of operating-system calls are decided by an explicit record
      of faults handed to each operation, so that every theorem covers
      every combination of failing steps. *)

From Stdlib Require Import ZArith NArith List Bool Lia.
From Stdlib Require Import Strings.String Strings.Ascii Strings.Byte.
From stdpp Require Import base option list strings gmap.

Local Open Scope string_scope.
Local Open Scope list_scope.

(** ** Paths *)

Abbreviation path := (list string).

(** [filepath.Join(dir, name)] for a single-component [name]. *)
Definition filepath_Join (dir : path) (name : string) : path := dir ++ [name].

(** [filepath.Dir(p)]: everything but the last component. *)
Definition filepath_Dir (p : path) : path := removelast p.

(** ** Errors *)

(** The categories of [internal/errors] used in this file. *)
Inductive ErrorCategory : Type :=
| CategoryConfiguration
| CategoryValidation
| CategoryFileIO
| CategorySystem.

(** The error numbers of the system calls the code reacts to. *)
Inductive Errno : Type :=
| ENOENT | EEXIST | EXDEV | EIO | EACCES | ENOSPC | EROFS.

(** Values of Go's [error] interface that occur in this package.
    [EnhancedError] is what [errors.New(err).Category(c).Context(k, v).Build()]
    builds: the wrapped cause, the category and the context pairs in the
    order they were added. *)
Inductive error : Type :=
| errorString (msg : string)
| PathError (op : string) (p : path) (errno : Errno)
| ConfigFileNotFoundError (name : string)
| ValidationError (Errors : list string)
| EnhancedError (cause : error) (category : option ErrorCategory)
    (context : list (string * string)).

Module errors.

Record ErrorBuilder : Type := mkBuilder {
  b_err : error;
  b_category : option ErrorCategory;
  b_context : list (string * string)
}.

Definition New (e : error) : ErrorBuilder := mkBuilder e None [].

Definition Category (c : ErrorCategory) (b : ErrorBuilder) : ErrorBuilder :=
  mkBuilder (b_err b) (Some c) (b_context b).

Definition Context (k v : string) (b : ErrorBuilder) : ErrorBuilder :=
  mkBuilder (b_err b) (b_category b) (b_context b ++ [(k, v)]).

Definition Build (b : ErrorBuilder) : error :=
  EnhancedError (b_err b) (b_category b) (b_context b).

(** [errors.As(err, &validationErr)]: the first [ValidationError] on the
    chain of causes, if any. *)
Fixpoint AsValidationError (e : error) : option (list string) :=
  match e with
  | ValidationError msgs => Some msgs
  | EnhancedError cause _ _ => AsValidationError cause
  | _ => None
  end.

(** [errors.As(err, &configFileNotFoundError)]. *)
Fixpoint AsConfigFileNotFoundError (e : error) : bool :=
  match e with
  | ConfigFileNotFoundError _ => true
  | EnhancedError cause _ _ => AsConfigFileNotFoundError cause
  | _ => false
  end.

(** The category an error was built with. *)
Definition CategoryOf (e : error) : option ErrorCategory :=
  match e with
  | EnhancedError _ c _ => c
  | _ => None
  end.

(** The value stored under a context key. *)
Definition ContextOf (k : string) (e : error) : option string :=
  match e with
  | EnhancedError _ _ ctx =>
      snd <$> List.find (fun kv => String.eqb (fst kv) k) ctx
  | _ => None
  end.

End errors.

(** The builder calls of the source are chained with [|>]. *)
Notation "e '|>' f" := (f e) (at level 45, left associativity, only parsing).

(** [os.IsNotExist(err)]. *)
Definition os_IsNotExist (e : error) : bool :=
  match e with
  | PathError _ _ ENOENT => true
  | _ => false
  end.

(** ** The settings structures *)

Module OpenWeatherSettings.
Record t : Type := mk {
  Enabled : bool;
  APIKey : string;
  Endpoint : string;
  Units : string;
  Language : string
}.
(** The zero value [OpenWeatherSettings{}]. *)
Definition zero : t := mk false EmptyString EmptyString EmptyString EmptyString.
End OpenWeatherSettings.

Module WeatherSettings.
Record t : Type := mk {
  Provider : string;
  PollInterval : Z;
  Debug : bool;
  OpenWeather : OpenWeatherSettings.t
}.
Definition zero : t := mk EmptyString 0 false OpenWeatherSettings.zero.
End WeatherSettings.

Module RealtimeSettings.
Record t : Type := mk {
  Interval : Z;
  ProcessingTime : bool;
  OpenWeather : OpenWeatherSettings.t;
  Weather : WeatherSettings.t
}.
Definition zero : t := mk 0 false OpenWeatherSettings.zero WeatherSettings.zero.
End RealtimeSettings.

Module RangeFilterSettings.
Record t : Type := mk {
  Debug : bool;
  Model : string;
  Species : list string
}.
Definition zero : t := mk false EmptyString [].
Definition with_Species (sp : list string) (r : t) : t :=
  mk (Debug r) (Model r) sp.
End RangeFilterSettings.

Module BirdNETConfig.
Record t : Type := mk {
  Debug : bool;
  Threads : Z;
  Locale : string;
  RangeFilter : RangeFilterSettings.t;
  ModelPath : string;
  LabelPath : string;
  Labels : list string;
  UseXNNPACK : bool
}.
Definition zero : t :=
  mk false 0 EmptyString RangeFilterSettings.zero EmptyString EmptyString [] false.
Definition with_RangeFilter (r : RangeFilterSettings.t) (b : t) : t :=
  mk (Debug b) (Threads b) (Locale b) r (ModelPath b) (LabelPath b) (Labels b)
     (UseXNNPACK b).
End BirdNETConfig.

Module BasicAuth.
Record t : Type := mk {
  Enabled : bool;
  Password : string;
  ClientID : string;
  ClientSecret : string;
  RedirectURI : string
}.
Definition zero : t := mk false EmptyString EmptyString EmptyString EmptyString.
End BasicAuth.

Module Security.
Record t : Type := mk {
  Debug : bool;
  Host : string;
  AutoTLS : bool;
  RedirectToHTTPS : bool;
  BasicAuth : BasicAuth.t;
  SessionSecret : string
}.
Definition zero : t := mk false EmptyString false false BasicAuth.zero EmptyString.
End Security.

Module Settings.
Record t : Type := mk {
  Debug : bool;
  Version : string;
  BuildDate : string;
  SystemID : string;
  ValidationWarnings : list string;
  BirdNET : BirdNETConfig.t;
  Realtime : RealtimeSettings.t;
  Security : Security.t
}.
(** The zero value [Settings{}]. *)
Definition zero : t :=
  mk false EmptyString EmptyString EmptyString [] BirdNETConfig.zero
     RealtimeSettings.zero Security.zero.
Definition with_ValidationWarnings (ws : list string) (s : t) : t :=
  mk (Debug s) (Version s) (BuildDate s) (SystemID s) ws (BirdNET s)
     (Realtime s) (Security s).
Definition with_BirdNET (b : BirdNETConfig.t) (s : t) : t :=
  mk (Debug s) (Version s) (BuildDate s) (SystemID s) (ValidationWarnings s) b
     (Realtime s) (Security s).
End Settings.

(** ** Weather provider resolution *)

(** [func (s *Settings) GetWeatherSettings() (provider string, openweather OpenWeatherSettings)] *)
Definition GetWeatherSettings (s : Settings.t) : string * OpenWeatherSettings.t :=
  let weather := RealtimeSettings.Weather (Settings.Realtime s) in
  let legacy := RealtimeSettings.OpenWeather (Settings.Realtime s) in
  if negb (String.eqb (WeatherSettings.Provider weather) EmptyString) then
    (WeatherSettings.Provider weather, WeatherSettings.OpenWeather weather)
  else if OpenWeatherSettings.Enabled legacy then
    ("openweather", legacy)
  else
    ("yrno", OpenWeatherSettings.zero).

(** ** Backup targets *)

(** [type BackupTargetSettings interface { Validate() error }].  Every
    implementation has a pointer receiver, so [Validate] returns the
    receiver as the call leaves it next to the error ([None] is [nil]). *)
Class BackupTargetSettings (T : Type) : Type :=
  Validate : T -> T * option error.

Module LocalBackupSettings.
Record t : Type := mk { Path : string }.
Definition Validate (s : t) : t * option error :=
  if String.eqb (Path s) EmptyString then
    (s, Some (errorString "local backup path cannot be empty"))
  else (s, None).
End LocalBackupSettings.

Module FTPBackupSettings.
Record t : Type := mk {
  Host : string;
  Port : Z;
  Username : string;
  Password : string;
  Path : string;
  UseTLS : bool
}.
Definition with_Port (p : Z) (s : t) : t :=
  mk (Host s) p (Username s) (Password s) (Path s) (UseTLS s).
Definition Validate (s : t) : t * option error :=
  if String.eqb (Host s) EmptyString then
    (s, Some (errorString "FTP host cannot be empty"))
  else
    let s := if (Port s =? 0)%Z then with_Port 21 s else s in
    (s, None).
End FTPBackupSettings.

Module SFTPBackupSettings.
Record t : Type := mk {
  Host : string;
  Port : Z;
  Username : string;
  Password : string;
  PrivateKeyPath : string;
  Path : string
}.
Definition with_Port (p : Z) (s : t) : t :=
  mk (Host s) p (Username s) (Password s) (PrivateKeyPath s) (Path s).
Definition Validate (s : t) : t * option error :=
  if String.eqb (Host s) EmptyString then
    (s, Some (errorString "SFTP host cannot be empty"))
  else
    let s := if (Port s =? 0)%Z then with_Port 22 s else s in
    if String.eqb (Username s) EmptyString then
      (s, Some (errorString "SFTP username cannot be empty"))
    else (s, None).
End SFTPBackupSettings.

Module S3BackupSettings.
Record t : Type := mk {
  Endpoint : string;
  Region : string;
  Bucket : string;
  AccessKeyID : string;
  SecretAccessKey : string;
  Prefix : string;
  UseSSL : bool
}.
Definition Validate (s : t) : t * option error :=
  if String.eqb (Bucket s) EmptyString then
    (s, Some (errorString "S3 bucket name cannot be empty"))
  else if String.eqb (Region s) EmptyString then
    (s, Some (errorString "S3 region cannot be empty"))
  else (s, None).
End S3BackupSettings.

Module RsyncBackupSettings.
Record t : Type := mk {
  Host : string;
  Port : Z;
  Username : string;
  Path : string;
  SSHKeyPath : string;
  Options : list string
}.
Definition with_Port (p : Z) (s : t) : t :=
  mk (Host s) p (Username s) (Path s) (SSHKeyPath s) (Options s).
Definition Validate (s : t) : t * option error :=
  if String.eqb (Path s) EmptyString then
    (s, Some (errorString "rsync path cannot be empty"))
  else
    let s :=
      if negb (String.eqb (Host s) EmptyString) && (Port s =? 0)%Z
      then with_Port 22 s else s in
    (s, None).
End RsyncBackupSettings.

Module GoogleDriveBackupSettings.
Record t : Type := mk {
  CredentialsPath : string;
  FolderID : string
}.
Definition Validate (s : t) : t * option error :=
  if String.eqb (CredentialsPath s) EmptyString then
    (s, Some (errorString "google drive credentials path cannot be empty"))
  else (s, None).
End GoogleDriveBackupSettings.

#[global] Instance LocalBackupSettings_target :
  BackupTargetSettings LocalBackupSettings.t := LocalBackupSettings.Validate.
#[global] Instance FTPBackupSettings_target :
  BackupTargetSettings FTPBackupSettings.t := FTPBackupSettings.Validate.
#[global] Instance SFTPBackupSettings_target :
  BackupTargetSettings SFTPBackupSettings.t := SFTPBackupSettings.Validate.
#[global] Instance S3BackupSettings_target :
  BackupTargetSettings S3BackupSettings.t := S3BackupSettings.Validate.
#[global] Instance RsyncBackupSettings_target :
  BackupTargetSettings RsyncBackupSettings.t := RsyncBackupSettings.Validate.
#[global] Instance GoogleDriveBackupSettings_target :
  BackupTargetSettings GoogleDriveBackupSettings.t :=
  GoogleDriveBackupSettings.Validate.

(** ** [strings.Contains] *)

(** [strings.HasPrefix(s, p)]. *)
Fixpoint HasPrefix (s p : string) {struct p} : bool :=
  match p with
  | EmptyString => true
  | String c p' =>
      match s with
      | EmptyString => false
      | String d s' => Ascii.eqb c d && HasPrefix s' p'
      end
  end.

(** [strings.Contains(s, substr)]: [substr] occurs at some offset of [s]. *)
Fixpoint Contains (s substr : string) : bool :=
  HasPrefix s substr ||
  match s with
  | EmptyString => false
  | String _ s' => Contains s' substr
  end.

(** The required fields of the six variants, in the order [Validate]
    checks them, each with the word the message uses for it and the message
    returned when it is empty. *)
Definition required_field_errors : list (string * string * string) :=
  [ ("local", "path", "local backup path cannot be empty");
    ("ftp", "host", "FTP host cannot be empty");
    ("sftp", "host", "SFTP host cannot be empty");
    ("sftp", "username", "SFTP username cannot be empty");
    ("s3", "bucket", "S3 bucket name cannot be empty");
    ("s3", "region", "S3 region cannot be empty");
    ("rsync", "path", "rsync path cannot be empty");
    ("gdrive", "credentials path",
     "google drive credentials path cannot be empty") ].

(** ** The process state *)

(** A file: its contents and its permission bits. *)
Record File : Type := mkFile {
  f_data : string;
  f_mode : N
}.

(** The file system: regular files and directories (with their modes). *)
Record FileSystem : Type := mkFS {
  files : gmap path File;
  dirs : gmap path N
}.

(** The state of the global viper instance: the search paths and the three
    layers [viper.GetString] looks a key up in. *)
Record Viper : Type := mkViper {
  v_configName : string;
  v_configType : string;
  v_configPaths : list path;
  v_override : gmap string string;
  v_config : gmap string string;
  v_defaults : gmap string string
}.

(** A [sync.RWMutex]: the number of read locks held and whether the write
    lock is held. *)
Record RWMutex : Type := mkRWMutex {
  readers : nat;
  writer : bool
}.

#[global] Instance RWMutex_eq_dec : EqDecision RWMutex.
Proof. solve_decision. Defined.

(** One line written by [log.Printf] or [fmt.Println]: the format and the
    argument. *)
Inductive LogArg : Type :=
| ArgString (s : string)
| ArgPath (p : path)
| ArgError (e : error).

Record World : Type := mkWorld {
  settingsInstance : option Settings.t;
  once : bool;
  settingsMutex : RWMutex;
  speciesListMutex : RWMutex;
  viper : Viper;
  fs : FileSystem;
  output : list (string * LogArg);
  (** Instrumentation, not a variable of the program: how many times
      [Load] has been entered. *)
  loadCalls : nat
}.

Definition set_settingsInstance (x : option Settings.t) (w : World) : World :=
  mkWorld x (once w) (settingsMutex w) (speciesListMutex w) (viper w) (fs w)
    (output w) (loadCalls w).
Definition set_once (x : bool) (w : World) : World :=
  mkWorld (settingsInstance w) x (settingsMutex w) (speciesListMutex w)
    (viper w) (fs w) (output w) (loadCalls w).
Definition set_settingsMutex (x : RWMutex) (w : World) : World :=
  mkWorld (settingsInstance w) (once w) x (speciesListMutex w) (viper w) (fs w)
    (output w) (loadCalls w).
Definition set_speciesListMutex (x : RWMutex) (w : World) : World :=
  mkWorld (settingsInstance w) (once w) (settingsMutex w) x (viper w) (fs w)
    (output w) (loadCalls w).
Definition set_viper (x : Viper) (w : World) : World :=
  mkWorld (settingsInstance w) (once w) (settingsMutex w) (speciesListMutex w)
    x (fs w) (output w) (loadCalls w).
Definition set_fs (x : FileSystem) (w : World) : World :=
  mkWorld (settingsInstance w) (once w) (settingsMutex w) (speciesListMutex w)
    (viper w) x (output w) (loadCalls w).
Definition set_output (x : list (string * LogArg)) (w : World) : World :=
  mkWorld (settingsInstance w) (once w) (settingsMutex w) (speciesListMutex w)
    (viper w) (fs w) x (loadCalls w).
Definition set_loadCalls (x : nat) (w : World) : World :=
  mkWorld (settingsInstance w) (once w) (settingsMutex w) (speciesListMutex w)
    (viper w) (fs w) (output w) x.

(** The state of a process that has just started. *)
Definition initial_World (v : Viper) (f : FileSystem) : World :=
  mkWorld None false (mkRWMutex 0 false) (mkRWMutex 0 false) v f [] 0.

(** ** Computations *)

(** How a call ends: it returns, it panics, the process exits
    ([log.Fatalf]), or the goroutine waits for a lock that is not free. *)
Inductive Result (A : Type) : Type :=
| Ret (a : A)
| Panic (reason : string)
| Exit (code : Z)
| Block.
Arguments Ret {A} a.
Arguments Panic {A} reason.
Arguments Exit {A} code.
Arguments Block {A}.

Definition M (A : Type) : Type := World -> Result A * World.

Definition ret {A} (a : A) : M A := fun w => (Ret a, w).

Definition bind {A B} (c : M A) (k : A -> M B) : M B :=
  fun w =>
    match c w with
    | (Ret a, w') => k a w'
    | (Panic r, w') => (Panic r, w')
    | (Exit n, w') => (Exit n, w')
    | (Block, w') => (Block, w')
    end.

Notation "'let*' x ':=' c 'in' k" := (bind c (fun x => k))
  (at level 10, x pattern, c at level 100, k at level 200).
Notation "c ';;' k" := (bind c (fun _ => k))
  (at level 100, k at level 200, right associativity).

Definition get {A} (f : World -> A) : M A := fun w => (Ret (f w), w).
Definition modify (f : World -> World) : M unit := fun w => (Ret tt, f w).
Definition panic {A} (reason : string) : M A := fun w => (Panic reason, w).

(** [defer d; body]: the deferred call runs when [body] returns and when it
    panics, not when the process exits inside it. *)
Definition defer {A} (d : World -> World) (body : M A) : M A :=
  fun w =>
    match body w with
    | (Ret a, w') => (Ret a, d w')
    | (Panic r, w') => (Panic r, d w')
    | (Exit n, w') => (Exit n, w')
    | (Block, w') => (Block, w')
    end.

(** [log.Printf(format, arg)]. *)
Definition log_Printf (format : string) (arg : LogArg) : M unit :=
  modify (fun w => set_output (output w ++ [(format, arg)]) w).

(** [log.Fatalf(format, arg)]: prints and calls [os.Exit(1)]. *)
Definition log_Fatalf {A} (format : string) (arg : LogArg) : M A :=
  fun w => (Exit 1, set_output (output w ++ [(format, arg)]) w).

(** *** Locks *)

Definition RLock (m : World -> RWMutex) (set : RWMutex -> World -> World) : M unit :=
  fun w =>
    if writer (m w) then (Block, w)
    else (Ret tt, set (mkRWMutex (S (readers (m w))) false) w).

Definition RUnlock (m : World -> RWMutex) (set : RWMutex -> World -> World)
  (w : World) : World :=
  set (mkRWMutex (pred (readers (m w))) (writer (m w))) w.

Definition Lock (m : World -> RWMutex) (set : RWMutex -> World -> World) : M unit :=
  fun w =>
    if writer (m w) || negb (Nat.eqb (readers (m w)) 0) then (Block, w)
    else (Ret tt, set (mkRWMutex 0 true) w).

Definition Unlock (m : World -> RWMutex) (set : RWMutex -> World -> World)
  (w : World) : World :=
  set (mkRWMutex (readers (m w)) false) w.

(** ** [encoding/base64]: [RawURLEncoding] *)

(** The URL-safe alphabet of RFC 4648. *)
Definition encodeURL : string :=
  "ABCDEFGHIJKLMNOPQRSTUVWXYZabcdefghijklmnopqrstuvwxyz0123456789-_".

(** [enc.encode[v]]; every index the encoder uses is masked with [0x3F]. *)
Definition encode_char (v : N) : ascii :=
  match String.get (N.to_nat v) encodeURL with
  | Some c => c
  | None => "A"%char
  end.

(** [uint(src[i])] *)
Definition uint (b : byte) : N := Byte.to_N b.

(** [base64.RawURLEncoding.EncodeToString(src)]: three bytes make four
    characters; a rest of one or two bytes makes two or three characters
    and, the encoding being raw, no padding is added. *)
Fixpoint EncodeToString (src : list byte) : string :=
  match src with
  | [] => EmptyString
  | [b0] =>
      let val := N.shiftl (uint b0) 16 in
      String (encode_char (N.land (N.shiftr val 18) 63))
        (String (encode_char (N.land (N.shiftr val 12) 63)) EmptyString)
  | [b0; b1] =>
      let val := N.lor (N.shiftl (uint b0) 16) (N.shiftl (uint b1) 8) in
      String (encode_char (N.land (N.shiftr val 18) 63))
        (String (encode_char (N.land (N.shiftr val 12) 63))
           (String (encode_char (N.land (N.shiftr val 6) 63)) EmptyString))
  | b0 :: b1 :: b2 :: rest =>
      let val :=
        N.lor (N.lor (N.shiftl (uint b0) 16) (N.shiftl (uint b1) 8)) (uint b2) in
      String (encode_char (N.land (N.shiftr val 18) 63))
        (String (encode_char (N.land (N.shiftr val 12) 63))
           (String (encode_char (N.land (N.shiftr val 6) 63))
              (String (encode_char (N.land val 63)) (EncodeToString rest))))
  end.

(** The inverse table: the index of a character in the alphabet. *)
Fixpoint index_of (c : ascii) (alphabet : string) : option N :=
  match alphabet with
  | EmptyString => None
  | String d rest =>
      if Ascii.eqb c d then Some 0%N else N.succ <$> index_of c rest
  end.

Definition decode_char (c : ascii) : option N := index_of c encodeURL.

Definition byte_of (n : N) : byte :=
  match Byte.of_N (N.land n 255) with
  | Some b => b
  | None => x00
  end.

(** Decoding of raw URL-safe base64, used to show that a secret determines
    the bytes it was made from. *)
Fixpoint DecodeString (s : string) : option (list byte) :=
  match s with
  | EmptyString => Some []
  | String _ EmptyString => None
  | String c0 (String c1 EmptyString) =>
      s0 ← decode_char c0; s1 ← decode_char c1;
      let val := N.lor (N.shiftl s0 18) (N.shiftl s1 12) in
      Some [byte_of (N.shiftr val 16)]
  | String c0 (String c1 (String c2 EmptyString)) =>
      s0 ← decode_char c0; s1 ← decode_char c1; s2 ← decode_char c2;
      let val := N.lor (N.lor (N.shiftl s0 18) (N.shiftl s1 12)) (N.shiftl s2 6) in
      Some [byte_of (N.shiftr val 16); byte_of (N.shiftr val 8)]
  | String c0 (String c1 (String c2 (String c3 rest))) =>
      s0 ← decode_char c0; s1 ← decode_char c1; s2 ← decode_char c2;
      s3 ← decode_char c3;
      let val :=
        N.lor (N.lor (N.lor (N.shiftl s0 18) (N.shiftl s1 12)) (N.shiftl s2 6)) s3 in
      tail ← DecodeString rest;
      Some (byte_of (N.shiftr val 16) :: byte_of (N.shiftr val 8)
            :: byte_of val :: tail)
  end.

(** ** The secret generator *)

(** What the entropy source does when asked: it fails, or it delivers the
    bytes ([Some f]: the [i]-th byte read is [f i]). *)
Abbreviation Entropy := (option (nat -> byte)).

(** [rand.Read(b)]: on success the whole buffer is overwritten. *)
Definition rand_Read (src : Entropy) (b : list byte) : list byte * option error :=
  match src with
  | Some f => (map f (seq 0 (length b)), None)
  | None => (b, Some (errorString "crypto/rand: entropy source unavailable"))
  end.

(** [func GenerateRandomSecret() string] *)
Definition GenerateRandomSecret (src : Entropy) : M string :=
  let bytes := repeat x00 32 in
  match rand_Read src bytes with
  | (_, Some err) =>
      let enhancedErr :=
        errors.New err
        |> errors.Category CategorySystem
        |> errors.Context "operation" "generate-random-secret"
        |> errors.Build in
      log_Printf "Failed to generate random secret: %v" (ArgError enhancedErr);;
      ret EmptyString
  | (bytes, None) => ret (EncodeToString bytes)
  end.

(** ** Operating-system calls

    Each call takes the fault injected into it: [None] lets it succeed,
    [Some e] makes it fail with [e]. *)

Definition perm_0o600 : N := 384.
Definition perm_0o755 : N := 493.

Definition path_string (p : path) : string := String.concat "/" p.

Definition is_dir (f : FileSystem) (d : path) : bool :=
  match d with
  | [] => true
  | _ => bool_decide (is_Some (dirs f !! d))
  end.

(** The pattern of [os.CreateTemp] split at its last star. *)
Fixpoint prefixAndSuffix (pattern : string) : option (string * string) :=
  match pattern with
  | EmptyString => None
  | String c rest =>
      match prefixAndSuffix rest with
      | Some (p, q) => Some (String c p, q)
      | None => if Ascii.eqb c "*" then Some (EmptyString, rest) else None
      end
  end.

(** The name [os.CreateTemp] gives the file for the random string [rnd]. *)
Definition temp_name (dir : path) (pattern rnd : string) : path :=
  match prefixAndSuffix pattern with
  | Some (p, q) => filepath_Join dir (p +:+ rnd +:+ q)
  | None => filepath_Join dir (pattern +:+ rnd)
  end.

(** [os.CreateTemp(dir, pattern)]: the file is opened with [O_EXCL], so the
    name the call settles on is one that was free; it is created empty with
    mode 0600.  [r] is the failure, or the random string of the name. *)
Definition os_CreateTemp (r : error + string) (dir : path) (pattern : string)
  : M (error + path) :=
  match r with
  | inl e => ret (inl e)
  | inr rnd =>
      let name := temp_name dir pattern rnd in
      fun w =>
        if negb (is_dir (fs w) dir) then
          (Ret (inl (PathError "open" name ENOENT)), w)
        else
          match files (fs w) !! name with
          | Some _ => (Ret (inl (PathError "open" name EEXIST)), w)
          | None =>
              (Ret (inr name),
               set_fs (mkFS (<[name := mkFile EmptyString perm_0o600]> (files (fs w)))
                         (dirs (fs w))) w)
          end
  end.

(** Appending to an open file. *)
Definition append_data (d : string) (f : File) : File :=
  mkFile (f_data f +:+ d) (f_mode f).

(** [f.Write(data)] on the file opened as [name].  The fault [Some (n, e)]
    is a write that fails with [e] after [n] bytes went out. *)
Definition File_Write (fault : option (nat * error)) (name : path) (data : string)
  : M (option error) :=
  fun w =>
    let written :=
      match fault with
      | Some (n, _) => String.substring 0 n data
      | None => data
      end in
    (Ret (snd <$> fault),
     set_fs (mkFS (alter (append_data written) name (files (fs w))) (dirs (fs w))) w).

(** [f.Close()]. *)
Definition File_Close (fault : option error) (name : path) : M (option error) :=
  ret fault.

(** [os.Rename(oldpath, newpath)]: atomic; on failure nothing changes. *)
Definition os_Rename (fault : option error) (oldpath newpath : path)
  : M (option error) :=
  fun w =>
    match fault with
    | Some e => (Ret (Some e), w)
    | None =>
        match files (fs w) !! oldpath with
        | None => (Ret (Some (PathError "rename" oldpath ENOENT)), w)
        | Some f =>
            (Ret None,
             set_fs (mkFS (<[newpath := f]> (delete oldpath (files (fs w))))
                       (dirs (fs w))) w)
        end
    end.

(** [os.Remove(name)]. *)
Definition os_Remove (fault : option error) (name : path) : M (option error) :=
  fun w =>
    match files (fs w) !! name with
    | None => (Ret (Some (PathError "remove" name ENOENT)), w)
    | Some _ =>
        match fault with
        | Some e => (Ret (Some e), w)
        | None =>
            (Ret None,
             set_fs (mkFS (delete name (files (fs w))) (dirs (fs w))) w)
        end
    end.

(** The directories [os.MkdirAll(p, perm)] looks at: [p] and its ancestors,
    outermost first. *)
Definition ancestors (p : path) : list path :=
  map (fun n => take n p) (seq 1 (length p)).

Definition mkdir_if_absent (perm : N) (ds : gmap path N) (d : path) : gmap path N :=
  match ds !! d with
  | Some _ => ds
  | None => <[d := perm]> ds
  end.

(** [os.MkdirAll(p, perm)]: creates what is missing with mode [perm]. *)
Definition os_MkdirAll (fault : option error) (p : path) (perm : N)
  : M (option error) :=
  fun w =>
    match fault with
    | Some e => (Ret (Some e), w)
    | None =>
        (Ret None,
         set_fs (mkFS (files (fs w))
                   (foldl (mkdir_if_absent perm) (dirs (fs w)) (ancestors p))) w)
    end.

(** [os.WriteFile(name, data, perm)]: creates the file with mode [perm] if
    it does not exist, truncates it otherwise (keeping its mode), and
    writes [data].  The fault [Some (None, e)] is a failure to open,
    [Some (Some n, e)] a failure after [n] bytes. *)
Definition os_WriteFile (fault : option (option nat * error)) (name : path)
  (data : string) (perm : N) : M (option error) :=
  fun w =>
    let mode :=
      match files (fs w) !! name with
      | Some f => f_mode f
      | None => perm
      end in
    let store d :=
      set_fs (mkFS (<[name := mkFile d mode]> (files (fs w))) (dirs (fs w))) w in
    match fault with
    | Some (None, e) => (Ret (Some e), w)
    | Some (Some n, e) => (Ret (Some e), store (String.substring 0 n data))
    | None =>
        if is_dir (fs w) (filepath_Dir name) then (Ret None, store data)
        else (Ret (Some (PathError "open" name ENOENT)), w)
    end.

(** ** Viper *)

(** [viper.SetConfigName], [viper.SetConfigType], [viper.AddConfigPath]. *)
Definition viper_SetConfigName (n : string) : M unit :=
  modify (fun w =>
    let v := viper w in
    set_viper (mkViper n (v_configType v) (v_configPaths v) (v_override v)
                 (v_config v) (v_defaults v)) w).

Definition viper_SetConfigType (t : string) : M unit :=
  modify (fun w =>
    let v := viper w in
    set_viper (mkViper (v_configName v) t (v_configPaths v) (v_override v)
                 (v_config v) (v_defaults v)) w).

Definition viper_AddConfigPath (p : path) : M unit :=
  modify (fun w =>
    let v := viper w in
    let paths :=
      if bool_decide (p ∈ v_configPaths v) then v_configPaths v
      else v_configPaths v ++ [p] in
    set_viper (mkViper (v_configName v) (v_configType v) paths (v_override v)
                 (v_config v) (v_defaults v)) w).

(** [viper.ReadInConfig()].  [r] is what reading the search paths yields:
    an error, or the keys of the document found. *)
Definition viper_ReadInConfig (r : error + gmap string string) : M (option error) :=
  match r with
  | inl e => ret (Some e)
  | inr cfg =>
      modify (fun w =>
        let v := viper w in
        set_viper (mkViper (v_configName v) (v_configType v) (v_configPaths v)
                     (v_override v) cfg (v_defaults v)) w);;
      ret None
  end.

(** The value [viper.GetString(key)] finds: explicit overrides, then the
    document, then the defaults; the empty string when the key is nowhere. *)
Definition Viper_GetString (v : Viper) (key : string) : string :=
  match v_override v !! key with
  | Some s => s
  | None =>
      match v_config v !! key with
      | Some s => s
      | None => default EmptyString (v_defaults v !! key)
      end
  end.

(** [viper.GetString(key)]. *)
Definition viper_GetString (key : string) : M string :=
  get (fun w => Viper_GetString (viper w) key).

(** [viper.Set(key, value)]. *)
Definition viper_Set (key value : string) : M unit :=
  modify (fun w =>
    let v := viper w in
    set_viper (mkViper (v_configName v) (v_configType v) (v_configPaths v)
                 (<[key := value]> (v_override v)) (v_config v) (v_defaults v)) w).

(** ** The environment: code outside this file *)

Record Env : Type := mkEnv {
  (** [yaml.Marshal(settings)] *)
  yaml_Marshal : Settings.t -> error + string;
  (** [viper.Unmarshal(settings)] *)
  viper_Unmarshal : Viper -> Settings.t -> error + Settings.t;
  (** [ValidateSettings(settings)] (validate.go); it is handed a pointer,
      so it returns the structure as it leaves it. *)
  ValidateSettings : Settings.t -> Settings.t * option error;
  (** [GetDefaultConfigPaths()] (utils.go) *)
  GetDefaultConfigPaths : World -> error + list path;
  (** [setDefaultConfig()] (defaults.go) *)
  setDefaultConfig : Viper -> Viper;
  (** [FindConfigFile()] (utils.go) *)
  FindConfigFile : World -> error + path;
  (** [moveFile(src, dst)] (utils.go) *)
  moveFile : path -> path -> FileSystem -> FileSystem * option error;
  (** [//go:embed config.yaml] *)
  configFiles : gmap string string
}.

(** The faults of one run of the save path. *)
Record SaveFaults : Type := mkSaveFaults {
  sf_createTemp : error + string;
  sf_write : option (nat * error);
  sf_close : option error;
  sf_rename : option error;
  sf_remove : option error
}.

(** The faults of one run of the load path. *)
Record LoadFaults : Type := mkLoadFaults {
  lf_read : error + gmap string string;
  lf_entropy : Entropy;
  lf_mkdirAll : option error;
  lf_writeFile : option (option nat * error);
  lf_reread : error + gmap string string
}.

(** ** The persister *)

Section Conf.

Context (E : Env).

(** The deferred closure of [SaveYAMLConfig]: remove the temporary file
    and log a failure other than "does not exist". *)
Definition remove_temp (fault : option error) (tempFileName : path) : M unit :=
  let* err := os_Remove fault tempFileName in
  match err with
  | Some err =>
      if negb (os_IsNotExist err) then
        log_Printf "Failed to remove temporary file: %v" (ArgError err)
      else ret tt
  | None => ret tt
  end.

(** [moveFile(src, dst)] run on the file system of the state. *)
Definition run_moveFile (src dst : path) : M (option error) :=
  fun w =>
    let (f, err) := moveFile E src dst (fs w) in
    (Ret err, set_fs f w).

(** The part of [SaveYAMLConfig] that follows the creation of the
    temporary file, up to the return. *)
Definition SaveYAMLConfig_install (o : SaveFaults) (configPath tempFileName : path)
  (yamlData : string) : M (option error) :=
  let* err := File_Write (sf_write o) tempFileName yamlData in
  match err with
  | Some err =>
      File_Close (sf_close o) tempFileName;;
      ret (Some (errors.New err
                 |> errors.Category CategoryFileIO
                 |> errors.Context "operation" "write-temp-file"
                 |> errors.Build))
  | None =>
      let* err := File_Close (sf_close o) tempFileName in
      match err with
      | Some err =>
          ret (Some (errors.New err
                     |> errors.Category CategoryFileIO
                     |> errors.Context "operation" "close-temp-file"
                     |> errors.Build))
      | None =>
          let* err := os_Rename (sf_rename o) tempFileName configPath in
          match err with
          | Some _ =>
              let* err := run_moveFile tempFileName configPath in
              match err with
              | Some err =>
                  ret (Some (errors.New err
                             |> errors.Category CategoryFileIO
                             |> errors.Context "operation" "move-config-file"
                             |> errors.Context "src" (path_string tempFileName)
                             |> errors.Context "dst" (path_string configPath)
                             |> errors.Build))
              | None => ret None
              end
          | None => ret None
          end
      end
  end.

(** [func SaveYAMLConfig(configPath string, settings *Settings) error] *)
Definition SaveYAMLConfig (o : SaveFaults) (configPath : path)
  (settings : Settings.t) : M (option error) :=
  match yaml_Marshal E settings with
  | inl err =>
      ret (Some (errors.New err
                 |> errors.Category CategoryConfiguration
                 |> errors.Context "operation" "yaml-marshal"
                 |> errors.Build))
  | inr yamlData =>
      let* tempFile :=
        os_CreateTemp (sf_createTemp o) (filepath_Dir configPath) "config-*.yaml" in
      match tempFile with
      | inl err =>
          ret (Some (errors.New err
                     |> errors.Category CategoryFileIO
                     |> errors.Context "operation" "create-temp-file"
                     |> errors.Context "dir" (path_string (filepath_Dir configPath))
                     |> errors.Build))
      | inr tempFileName =>
          defer (fun w => snd (remove_temp (sf_remove o) tempFileName w))
            (SaveYAMLConfig_install o configPath tempFileName yamlData)
      end
  end.

(** ** The loader *)

(** [func getDefaultConfig() string] *)
Definition getDefaultConfig : M string :=
  match configFiles E !! "config.yaml" with
  | Some data => ret data
  | None =>
      log_Fatalf "Error reading config file: %v"
        (ArgError (PathError "open" ["config.yaml"] ENOENT))
  end.

(** [func createDefaultConfig() error] *)
Definition createDefaultConfig (o : LoadFaults) : M (option error) :=
  let* paths := get (GetDefaultConfigPaths E) in
  match paths with
  | inl err =>
      ret (Some (errors.New err
                 |> errors.Category CategoryConfiguration
                 |> errors.Context "operation" "create-default-config-paths"
                 |> errors.Build))
  | inr configPaths =>
      match configPaths !! 0%nat with
      | None => panic "index out of range [0] with length 0"
      | Some first =>
          let configPath := filepath_Join first "config.yaml" in
          let* defaultConfig := getDefaultConfig in
          let* secret := viper_GetString "security.basicauth.clientsecret" in
          (if String.eqb secret EmptyString then
             let* fresh := GenerateRandomSecret (lf_entropy o) in
             viper_Set "security.basicauth.clientsecret" fresh
           else ret tt);;
          let* err := os_MkdirAll (lf_mkdirAll o) (filepath_Dir configPath) perm_0o755 in
          match err with
          | Some err =>
              ret (Some (errors.New err
                         |> errors.Category CategoryFileIO
                         |> errors.Context "operation" "create-config-dirs"
                         |> errors.Context "path" (path_string (filepath_Dir configPath))
                         |> errors.Build))
          | None =>
              let* err :=
                os_WriteFile (lf_writeFile o) configPath defaultConfig perm_0o600 in
              match err with
              | Some err =>
                  ret (Some (errors.New err
                             |> errors.Category CategoryFileIO
                             |> errors.Context "operation" "write-default-config"
                             |> errors.Context "path" (path_string configPath)
                             |> errors.Build))
              | None =>
                  log_Printf "Created default config file at:" (ArgPath configPath);;
                  viper_ReadInConfig (lf_reread o)
              end
          end
      end
  end.

(** The loop [for _, path := range configPaths { viper.AddConfigPath(path) }]. *)
Fixpoint add_config_paths (configPaths : list path) : M unit :=
  match configPaths with
  | [] => ret tt
  | p :: rest => viper_AddConfigPath p;; add_config_paths rest
  end.

(** [func initViper() error] *)
Definition initViper (o : LoadFaults) : M (option error) :=
  viper_SetConfigName "config";;
  viper_SetConfigType "yaml";;
  let* paths := get (GetDefaultConfigPaths E) in
  match paths with
  | inl err =>
      ret (Some (errors.New err
                 |> errors.Category CategoryConfiguration
                 |> errors.Context "operation" "get-config-paths"
                 |> errors.Build))
  | inr configPaths =>
      add_config_paths configPaths;;
      modify (fun w => set_viper (setDefaultConfig E (viper w)) w);;
      let* err := viper_ReadInConfig (lf_read o) in
      match err with
      | Some err =>
          if errors.AsConfigFileNotFoundError err then
            createDefaultConfig o
          else
            ret (Some (errors.New err
                       |> errors.Category CategoryFileIO
                       |> errors.Context "operation" "read-config-file"
                       |> errors.Build))
      | None => ret None
      end
  end.

(** The test of [Load] that makes a validation message a warning. *)
Definition is_warning (errMsg : string) : bool :=
  Contains errMsg "fallback" || Contains errMsg "not supported".

(** The loop of [Load] over [validationErr.Errors]: a warning is logged
    and appended to [settings.ValidationWarnings]; the first other message
    ends the loop, and [Load], with the error built from it. *)
Fixpoint classify_messages (err : error) (msgs : list string)
  (settings : Settings.t) : M (Settings.t * option error) :=
  match msgs with
  | [] => ret (settings, None)
  | errMsg :: rest =>
      if is_warning errMsg then
        log_Printf "Configuration warning: %s" (ArgString errMsg);;
        classify_messages err rest
          (Settings.with_ValidationWarnings
             (Settings.ValidationWarnings settings ++ [errMsg]) settings)
      else
        ret (settings,
             Some (errors.New err
                   |> errors.Category CategoryValidation
                   |> errors.Context "component" "settings"
                   |> errors.Context "error_msg" errMsg
                   |> errors.Build))
  end.

(** The part of [Load] that runs with the write lock held. *)
Definition Load_locked (o : LoadFaults) : M (option Settings.t * option error) :=
  let settings := Settings.zero in
  let* err := initViper o in
  match err with
  | Some err =>
      ret (None,
           Some (errors.New err
                 |> errors.Category CategoryConfiguration
                 |> errors.Context "operation" "init-viper"
                 |> errors.Build))
  | None =>
      let* v := get viper in
      match viper_Unmarshal E v settings with
      | inl err =>
          ret (None,
               Some (errors.New err
                     |> errors.Category CategoryConfiguration
                     |> errors.Context "operation" "unmarshal-config"
                     |> errors.Build))
      | inr settings =>
          let* checked :=
            match ValidateSettings E settings with
            | (settings, Some err) =>
                match errors.AsValidationError err with
                | Some Errors => classify_messages err Errors settings
                | None =>
                    ret (settings,
                         Some (errors.New err
                               |> errors.Category CategoryValidation
                               |> errors.Context "component" "settings"
                               |> errors.Build))
                end
            | (settings, None) => ret (settings, None)
            end in
          match checked with
          | (_, Some err) => ret (None, Some err)
          | (settings, None) =>
              modify (set_settingsInstance (Some settings));;
              let* installed := get settingsInstance in
              ret (installed, None)
          end
      end
  end.

(** [func Load()], returning a [*Settings] and an [error]. *)
Definition Load (o : LoadFaults) : M (option Settings.t * option error) :=
  modify (fun w => set_loadCalls (S (loadCalls w)) w);;
  Lock settingsMutex set_settingsMutex;;
  defer (Unlock settingsMutex set_settingsMutex) (Load_locked o).

(** ** The store *)

(** [func GetSettings() *Settings] *)
Definition GetSettings : M (option Settings.t) :=
  RLock settingsMutex set_settingsMutex;;
  defer (RUnlock settingsMutex set_settingsMutex) (get settingsInstance).

(** [make([]string, n)] and [copy(dst, src)]. *)
Definition make_strings (n : nat) : list string := replicate n EmptyString.

Definition copy_strings (dst src : list string) : list string :=
  take (length dst) src ++ drop (length src) dst.

(** The part of [SaveSettings] that runs with the read lock held. *)
Definition SaveSettings_locked (o : SaveFaults) : M (option error) :=
  let* instance := get settingsInstance in
  match instance with
  | None => panic "invalid memory address or nil pointer dereference"
  | Some live =>
      let settingsCopy := live in
      RLock speciesListMutex set_speciesListMutex;;
      let liveSpecies :=
        RangeFilterSettings.Species (BirdNETConfig.RangeFilter (Settings.BirdNET live)) in
      let species := copy_strings (make_strings (length liveSpecies)) liveSpecies in
      let settingsCopy :=
        Settings.with_BirdNET
          (BirdNETConfig.with_RangeFilter
             (RangeFilterSettings.with_Species species
                (BirdNETConfig.RangeFilter (Settings.BirdNET settingsCopy)))
             (Settings.BirdNET settingsCopy))
          settingsCopy in
      modify (RUnlock speciesListMutex set_speciesListMutex);;
      let* found := get (FindConfigFile E) in
      match found with
      | inl err =>
          ret (Some (errors.New err
                     |> errors.Category CategoryFileIO
                     |> errors.Context "operation" "find-config-file"
                     |> errors.Build))
      | inr configPath =>
          let* err := SaveYAMLConfig o configPath settingsCopy in
          match err with
          | Some err =>
              ret (Some (errors.New err
                         |> errors.Category CategoryFileIO
                         |> errors.Context "operation" "save-yaml-config"
                         |> errors.Context "path" (path_string configPath)
                         |> errors.Build))
          | None =>
              log_Printf "Settings saved successfully to %s" (ArgPath configPath);;
              ret None
          end
      end
  end.

(** [func SaveSettings() error] *)
Definition SaveSettings (o : SaveFaults) : M (option error) :=
  RLock settingsMutex set_settingsMutex;;
  defer (RUnlock settingsMutex set_settingsMutex) (SaveSettings_locked o).

(** [once.Do(f)]: [f] runs unless the flag is set; the flag is set when
    [f] returns or panics. *)
Definition once_Do (f : M unit) : M unit :=
  let* done := get once in
  if done then ret tt else defer (set_once true) f.

(** The function [Setting] hands to [once.Do]. *)
Definition Setting_init (o : LoadFaults) : M unit :=
  let* instance := get settingsInstance in
  match instance with
  | None =>
      let* loaded := Load o in
      match snd loaded with
      | Some err =>
          let enhancedErr :=
            errors.New err
            |> errors.Category CategoryConfiguration
            |> errors.Context "operation" "load-settings-init"
            |> errors.Build in
          log_Fatalf "Error loading settings: %v" (ArgError enhancedErr)
      | None => ret tt
      end
  | Some _ => ret tt
  end.

(** [func Setting() *Settings] *)
Definition Setting (o : LoadFaults) : M (option Settings.t) :=
  once_Do (Setting_init o);;
  GetSettings.

End Conf.

(** ** Predicates on computations *)

(** [c] never changes the component [f] of the state, however it ends. *)
Definition preserves {X A} (f : World -> X) (c : M A) : Prop :=
  forall w r w', c w = (r, w') -> f w' = f w.

(** [c] returns from every state: it neither panics, nor exits, nor waits. *)
Definition returns {A} (c : M A) : Prop :=
  forall w, exists a w', c w = (Ret a, w').

(** The components every library and system call of the model leaves
    alone: the installed instance, the once flag, the two locks and the
    call counter. *)
Definition store_of (w : World) : option Settings.t * bool * RWMutex * RWMutex * nat :=
  (settingsInstance w, once w, settingsMutex w, speciesListMutex w, loadCalls w).

(** What stays when the installed instance is replaced: the once flag, the
    locks and the call counter. *)
Definition bookkeeping_of (w : World) : bool * RWMutex * RWMutex * nat :=
  (once w, settingsMutex w, speciesListMutex w, loadCalls w).

(** ** Vocabulary of the statements *)

(** The characters of the URL-safe alphabet, by their codes: letters,
    digits, minus and underscore. *)
Definition is_url_safe (c : ascii) : bool :=
  let n := N_of_ascii c in
  ((65 <=? n) && (n <=? 90) || (97 <=? n) && (n <=? 122)
   || (48 <=? n) && (n <=? 57) || (n =? 45) || (n =? 95))%N.

(** The padding character of the padded encodings. *)
Definition padChar : ascii := "="%char.

Definition string_all (p : ascii -> bool) (s : string) : bool :=
  forallb p (list_ascii_of_string s).

(** What [GenerateRandomSecret] returns for an entropy source. *)
Definition fresh_secret (src : Entropy) : string :=
  match src with
  | Some f => EncodeToString (map f (seq 0 32))
  | None => EmptyString
  end.

(** The error [GenerateRandomSecret] logs when the entropy source fails. *)
Definition entropy_failure : error :=
  errors.Build
    (errors.Context "operation" "generate-random-secret"
       (errors.Category CategorySystem
          (errors.New (errorString "crypto/rand: entropy source unavailable")))).

Definition clientsecret_key : string := "security.basicauth.clientsecret".

(** The message of the table for a required field of a variant. *)
Definition field_error (variant field : string) : string :=
  match
    List.find (fun r => String.eqb (fst (fst r)) variant && String.eqb (snd (fst r)) field)
      required_field_errors
  with
  | Some r => snd r
  | None => EmptyString
  end.

(** [sub] occurs in [s]. *)
Definition occurs_in (sub s : string) : Prop :=
  exists pre post, s = pre +:+ sub +:+ post.

(** The messages the loop of [Load] records before it stops: the longest
    prefix made of warnings. *)
Fixpoint leading_warnings (msgs : list string) : list string :=
  match msgs with
  | [] => []
  | m :: rest => if is_warning m then m :: leading_warnings rest else []
  end.

(** The first message that is not a warning. *)
Definition first_fatal (msgs : list string) : option string :=
  List.find (fun m => negb (is_warning m)) msgs.

Definition record_warnings (msgs : list string) (s : Settings.t) : Settings.t :=
  Settings.with_ValidationWarnings (Settings.ValidationWarnings s ++ msgs) s.

Definition warning_lines (msgs : list string) : list (string * LogArg) :=
  map (fun m => ("Configuration warning: %s", ArgString m)) msgs.

(** The error [Load] returns for the message [errMsg] of the validation
    error [err]. *)
Definition fatal_validation_error (err : error) (errMsg : string) : error :=
  errors.Build
    (errors.Context "error_msg" errMsg
       (errors.Context "component" "settings"
          (errors.Category CategoryValidation (errors.New err)))).

(** The state [Load] runs its locked part in: the call is counted and the
    write lock is held. *)
Definition Load_entered (w : World) : World :=
  set_settingsMutex (mkRWMutex 0 true) (set_loadCalls (S (loadCalls w)) w).

(** What the locked part of [Load] does to the installed instance. *)
Definition install_outcome (before : option Settings.t)
  (r : Result (option Settings.t * option error)) (after : option Settings.t) : Prop :=
  match r with
  | Ret (Some s, None) => after = Some s
  | Ret (None, Some _) => after = before
  | Ret _ => False
  | Panic _ | Exit _ | Block => after = before
  end.

(** The search paths after the loop of [viper.AddConfigPath]. *)
Definition add_paths (configPaths : list path) (w : World) : World :=
  foldl (fun w p => snd (viper_AddConfigPath p w)) w configPaths.

(** The state in which [initViper] reads the document: name, type and
    search paths are set and the defaults are registered. *)
Definition initViper_prepared (E : Env) (configPaths : list path) (w : World) : World :=
  let w1 := snd (viper_SetConfigType "yaml" (snd (viper_SetConfigName "config" w))) in
  let w2 := add_paths configPaths w1 in
  set_viper (setDefaultConfig E (viper w2)) w2.

(** The read of [initViper] failed and the failure is "not found". *)
Definition read_not_found (o : LoadFaults) : bool :=
  match lf_read o with
  | inl e => errors.AsConfigFileNotFoundError e
  | inr _ => false
  end.

(** What [SaveYAMLConfig] needs of [moveFile]: when it fails the
    destination is as it was, when it succeeds the destination holds the
    contents of the source. *)
Definition moveFile_contract (E : Env) : Prop :=
  (forall src dst f f' e, src ≠ dst ->
     moveFile E src dst f = (f', Some e) -> files f' !! dst = files f !! dst) /\
  (forall src dst f f' file, src ≠ dst ->
     files f !! src = Some file -> moveFile E src dst f = (f', None) ->
     f_data <$> files f' !! dst = Some (f_data file)).

(** The name of the temporary file of a save to [configPath]. *)
Definition temp_of (configPath : path) (rnd : string) : path :=
  temp_name (filepath_Dir configPath) "config-*.yaml" rnd.

(** The copy [SaveSettings] hands to the persister. *)
Definition SaveSettings_copy (live : Settings.t) : Settings.t :=
  let liveSpecies :=
    RangeFilterSettings.Species (BirdNETConfig.RangeFilter (Settings.BirdNET live)) in
  Settings.with_BirdNET
    (BirdNETConfig.with_RangeFilter
       (RangeFilterSettings.with_Species
          (copy_strings (make_strings (length liveSpecies)) liveSpecies)
          (BirdNETConfig.RangeFilter (Settings.BirdNET live)))
       (Settings.BirdNET live))
    live.

(** The state in which [SaveSettings] looks for the document and saves:
    one more read lock on the settings, the species lock taken and given
    back. *)
Definition SaveSettings_entered (w : World) : World :=
  set_settingsMutex (mkRWMutex (S (readers (settingsMutex w))) false) w.

(** The error [SaveSettings] returns when [SaveYAMLConfig] fails. *)
Definition save_failure (configPath : path) (err : error) : error :=
  errors.Build
    (errors.Context "path" (path_string configPath)
       (errors.Context "operation" "save-yaml-config"
          (errors.Category CategoryFileIO (errors.New err)))).

(** The error [Setting] logs before it exits. *)
Definition load_settings_failure (err : error) : error :=
  errors.Build
    (errors.Context "operation" "load-settings-init"
       (errors.Category CategoryConfiguration (errors.New err))).

(** The states of a process in which no load has completed successfully:
    the process starts, and then calls the four operations in any order
    with any faults, but no call of [Load] returns settings and no call of
    [Setting] returns an instance. *)
Inductive never_loaded (E : Env) : World -> Prop :=
| never_loaded_start (v : Viper) (f : FileSystem) :
    never_loaded E (initial_World v f)
| never_loaded_Load (o : LoadFaults) (w w' : World)
    (r : Result (option Settings.t * option error)) :
    never_loaded E w -> Load E o w = (r, w') ->
    (forall s, r ≠ Ret (Some s, None)) ->
    never_loaded E w'
| never_loaded_GetSettings (w w' : World) (r : Result (option Settings.t)) :
    never_loaded E w -> GetSettings w = (r, w') -> never_loaded E w'
| never_loaded_SaveSettings (o : SaveFaults) (w w' : World)
    (r : Result (option error)) :
    never_loaded E w -> SaveSettings E o w = (r, w') -> never_loaded E w'
| never_loaded_Setting (o : LoadFaults) (w w' : World)
    (r : Result (option Settings.t)) :
    never_loaded E w -> Setting E o w = (r, w') ->
    (forall s, r ≠ Ret (Some s)) ->
    never_loaded E w'.

(** ** A small installation

    One search path, a template that sets the locale, a validator that
    replaces an unsupported locale (a warning) and refuses an empty one.
    It supplies the concrete runs the statements are tried on. *)

(** Three settings values, one per case of the weather resolution. *)
Definition settings_with_weather (provider : string) (newKey : string)
  (legacyEnabled : bool) (legacyKey : string) : Settings.t :=
  Settings.mk false EmptyString EmptyString EmptyString [] BirdNETConfig.zero
    (RealtimeSettings.mk 0 false
       (OpenWeatherSettings.mk legacyEnabled legacyKey EmptyString EmptyString EmptyString)
       (WeatherSettings.mk provider 0 false
          (OpenWeatherSettings.mk false newKey EmptyString EmptyString EmptyString)))
    Security.zero.

(** Target settings as a document could hold them. *)
Definition ftp_nas : FTPBackupSettings.t :=
  FTPBackupSettings.mk "nas.local" 0 "bird" "secret" "/backups" false.
Definition sftp_nas : SFTPBackupSettings.t :=
  SFTPBackupSettings.mk "nas.local" 0 "bird" EmptyString "/home/bird/.ssh/id" "/backups".
Definition rsync_remote : RsyncBackupSettings.t :=
  RsyncBackupSettings.mk "nas.local" 0 "bird" "/backups" EmptyString [].
Definition local_unset : LocalBackupSettings.t := LocalBackupSettings.mk EmptyString.
Definition s3_unset : S3BackupSettings.t :=
  S3BackupSettings.mk EmptyString EmptyString EmptyString EmptyString EmptyString
    EmptyString true.
Definition gdrive_unset : GoogleDriveBackupSettings.t :=
  GoogleDriveBackupSettings.mk EmptyString EmptyString.

Definition etc_birdnet : path := ["etc"; "birdnet-go"].
Definition config_yaml : path := filepath_Join etc_birdnet "config.yaml".

Definition with_Locale (l : string) (s : Settings.t) : Settings.t :=
  let b := Settings.BirdNET s in
  Settings.with_BirdNET
    (BirdNETConfig.mk (BirdNETConfig.Debug b) (BirdNETConfig.Threads b) l
       (BirdNETConfig.RangeFilter b) (BirdNETConfig.ModelPath b)
       (BirdNETConfig.LabelPath b) (BirdNETConfig.Labels b)
       (BirdNETConfig.UseXNNPACK b)) s.

Definition locale_warning : string :=
  "unsupported locale xx, will use fallback en-uk".
Definition locale_fatal : string := "birdnet locale must be set".

Definition demo_Validate (s : Settings.t) : Settings.t * option error :=
  let l := BirdNETConfig.Locale (Settings.BirdNET s) in
  if String.eqb l "xx" then
    (with_Locale "en-uk" s, Some (ValidationError [locale_warning]))
  else if String.eqb l EmptyString then
    (s, Some (ValidationError [locale_fatal]))
  else (s, None).

(** Modelled from the spec: [moveFile] is defined in utils.go, which is not
    among the sources; the specification describes it as "a copy-then-delete
    sequence".  This instance copies the source over the destination and
    deletes the source, and fails only when there is no source. *)
Definition copy_then_delete (src dst : path) (f : FileSystem)
  : FileSystem * option error :=
  match files f !! src with
  | None => (f, Some (PathError "open" src ENOENT))
  | Some file =>
      (mkFS (delete src (<[dst := file]> (files f))) (dirs f), None)
  end.

Definition demo_Env : Env :=
  {| yaml_Marshal s := inr ("locale: " +:+ BirdNETConfig.Locale (Settings.BirdNET s));
     viper_Unmarshal v s := inr (with_Locale (Viper_GetString v "birdnet.locale") s);
     ValidateSettings := demo_Validate;
     GetDefaultConfigPaths _ := inr [etc_birdnet];
     setDefaultConfig v :=
       mkViper (v_configName v) (v_configType v) (v_configPaths v) (v_override v)
         (v_config v) (<["birdnet.locale" := "en-uk"]> (v_defaults v));
     FindConfigFile w :=
       match files (fs w) !! config_yaml with
       | Some _ => inr config_yaml
       | None => inl (errorString "config file not found")
       end;
     moveFile := copy_then_delete;
     configFiles := {["config.yaml" := "locale: en-uk"]} |}.

(** A process that has just started on a machine without any document. *)
Definition fresh_World : World :=
  initial_World (mkViper EmptyString EmptyString [] ∅ ∅ ∅) (mkFS ∅ ∅).

(** No fault at all: with [cfg] the keys of the document found. *)
Definition read_document (cfg : gmap string string) : LoadFaults :=
  mkLoadFaults (inr cfg) (Some (fun _ => x00)) None None (inr cfg).

(** No document is found, and nothing else goes wrong. *)
Definition no_document : LoadFaults :=
  mkLoadFaults (inl (ConfigFileNotFoundError "config")) (Some (fun i => Byte.x2a))
    None None (inr ∅).

(** The document cannot be read for another reason. *)
Definition unreadable_document : LoadFaults :=
  mkLoadFaults (inl (PathError "open" config_yaml EACCES)) None None None (inr ∅).

(** Documents that set the locale to an unsupported and to an empty value. *)
Definition unsupported_locale : LoadFaults :=
  read_document {["birdnet.locale" := "xx"]}.

Definition empty_locale : LoadFaults :=
  read_document {["birdnet.locale" := EmptyString]}.

(** No fault in the save path; the temporary file is [config-1.yaml]. *)
Definition save_ok : SaveFaults := mkSaveFaults (inr "1") None None None None.

(** The write to the temporary file fails at once, and so does its removal. *)
Definition write_and_remove_fail : SaveFaults :=
  mkSaveFaults (inr "1") (Some (0%nat, PathError "write" [] ENOSPC)) None None
    (Some (PathError "remove" [] EACCES)).

(** The rename fails because the two names are on different file systems. *)
Definition cross_device : SaveFaults :=
  mkSaveFaults (inr "1") None None (Some (PathError "rename" [] EXDEV)) None.

(** The state after the first, successful, load of the small
    installation, called directly as a program does at start-up. *)
Definition loaded_World : World := snd (Load demo_Env no_document fresh_World).

(** The settings the small installation has after its first load. *)
Definition installed_settings : Settings.t := with_Locale "en-uk" Settings.zero.

(** ** Further vocabulary and installations *)

(** The settings with the new-format weather block set to a provider and
    its OpenWeather settings. *)
Definition with_Weather (provider : string) (ow : OpenWeatherSettings.t)
  (s : Settings.t) : Settings.t :=
  let r := Settings.Realtime s in
  let w := RealtimeSettings.Weather r in
  Settings.mk (Settings.Debug s) (Settings.Version s) (Settings.BuildDate s)
    (Settings.SystemID s) (Settings.ValidationWarnings s) (Settings.BirdNET s)
    (RealtimeSettings.mk (RealtimeSettings.Interval r)
       (RealtimeSettings.ProcessingTime r) (RealtimeSettings.OpenWeather r)
       (WeatherSettings.mk provider (WeatherSettings.PollInterval w)
          (WeatherSettings.Debug w) ow))
    (Settings.Security s).

(** The write to the temporary file fails at once; its removal works. *)
Definition write_fails : SaveFaults :=
  mkSaveFaults (inr "1") (Some (0%nat, PathError "write" [] ENOSPC)) None None None.

(** [c] never waits for a lock. *)
Definition never_blocks {A} (c : M A) : Prop :=
  forall w r w', c w = (r, w') -> r ≠ Block.

(** An installation whose list of search paths is empty. *)
Definition no_search_path_Env : Env :=
  {| yaml_Marshal := yaml_Marshal demo_Env;
     viper_Unmarshal := viper_Unmarshal demo_Env;
     ValidateSettings := demo_Validate;
     GetDefaultConfigPaths _ := inr [];
     setDefaultConfig := setDefaultConfig demo_Env;
     FindConfigFile := FindConfigFile demo_Env;
     moveFile := copy_then_delete;
     configFiles := configFiles demo_Env |}.

(** No document is found, and the directory for a new one cannot be
    created. *)
Definition read_only_disk : LoadFaults :=
  mkLoadFaults (inl (ConfigFileNotFoundError "config")) (Some (fun i => Byte.x2a))
    (Some (PathError "mkdir" etc_birdnet EROFS)) None (inr ∅).

(** * Properties *)

(** ** Weather provider resolution *)

Lemma eqb_empty_false (s : string) : s ≠ EmptyString -> String.eqb s EmptyString = false.
Proof. intros H. by apply String.eqb_neq. Qed.

(** C10. [GetWeatherSettings] returns the new-format provider and its
    OpenWeather block when the provider string is not empty; otherwise
    "openweather" and the legacy block when the legacy flag is set;
    otherwise "yrno" and the zero value.  The legacy flag is consulted only
    when the provider string is empty. *)
Theorem GetWeatherSettings_resolution (s : Settings.t) :
  let weather := RealtimeSettings.Weather (Settings.Realtime s) in
  let legacy := RealtimeSettings.OpenWeather (Settings.Realtime s) in
  (WeatherSettings.Provider weather ≠ EmptyString ->
   GetWeatherSettings s =
     (WeatherSettings.Provider weather, WeatherSettings.OpenWeather weather)) /\
  (WeatherSettings.Provider weather = EmptyString ->
   OpenWeatherSettings.Enabled legacy = true ->
   GetWeatherSettings s = ("openweather", legacy)) /\
  (WeatherSettings.Provider weather = EmptyString ->
   OpenWeatherSettings.Enabled legacy = false ->
   GetWeatherSettings s = ("yrno", OpenWeatherSettings.zero)).
Proof.
  intros weather legacy. unfold GetWeatherSettings. fold weather legacy.
  repeat split.
  - intros Hne. by rewrite (eqb_empty_false _ Hne).
  - intros -> ->. reflexivity.
  - intros -> ->. reflexivity.
Qed.

Lemma GetWeatherSettings_resolution_witness :
  fst (GetWeatherSettings (settings_with_weather "none" "k1" true "k2")) = "none" /\
  fst (GetWeatherSettings (settings_with_weather EmptyString "k1" true "k2")) = "openweather" /\
  fst (GetWeatherSettings (settings_with_weather EmptyString "k1" false "k2")) = "yrno".
Proof.
  split; [|split].
  - rewrite (proj1 (GetWeatherSettings_resolution
                      (settings_with_weather "none" "k1" true "k2"))); [reflexivity|].
    simpl. discriminate.
  - rewrite (proj1 (proj2 (GetWeatherSettings_resolution
                      (settings_with_weather EmptyString "k1" true "k2"))));
      reflexivity.
  - rewrite (proj2 (proj2 (GetWeatherSettings_resolution
                      (settings_with_weather EmptyString "k1" false "k2"))));
      reflexivity.
Defined.

(** ** Backup targets: defaults and required fields *)

Lemma eqb_empty_true (s : string) : s = EmptyString -> String.eqb s EmptyString = true.
Proof. intros ->. reflexivity. Qed.

Lemma Zeqb_false (n : Z) : n ≠ 0%Z -> (n =? 0)%Z = false.
Proof. intros H. by apply Z.eqb_neq. Qed.

Ltac validate_cases :=
  repeat match goal with
    | H : _ = EmptyString |- _ => rewrite (eqb_empty_true _ H) in *
    | H : _ ≠ EmptyString |- _ => rewrite (eqb_empty_false _ H) in *
    | H : _ = 0%Z |- _ => rewrite H in *
    | H : _ ≠ 0%Z |- _ => rewrite (Zeqb_false _ H) in *
    end.

(** C4. Validation of the target variants.  FTP: an empty host is an error
    naming the host; with a host, port 0 becomes 21.  SFTP: with a host,
    port 0 becomes 22; an empty host and an empty username are two
    different errors.  Rsync: an empty path is an error; port 0 becomes 22
    exactly when the host is not empty.  For every variant the first
    required field that is empty decides the error, the messages of the
    required fields are pairwise different, and each contains the name of
    its field. *)
Theorem target_defaulting_and_required_fields
  (loc : LocalBackupSettings.t) (ftp : FTPBackupSettings.t)
  (sftp : SFTPBackupSettings.t) (s3 : S3BackupSettings.t)
  (rsync : RsyncBackupSettings.t) (gd : GoogleDriveBackupSettings.t) :
  (* FTP *)
  (FTPBackupSettings.Host ftp = EmptyString ->
   Validate ftp = (ftp, Some (errorString (field_error "ftp" "host")))) /\
  (FTPBackupSettings.Host ftp ≠ EmptyString -> FTPBackupSettings.Port ftp = 0%Z ->
   Validate ftp = (FTPBackupSettings.with_Port 21 ftp, None)) /\
  (FTPBackupSettings.Host ftp ≠ EmptyString -> FTPBackupSettings.Port ftp ≠ 0%Z ->
   Validate ftp = (ftp, None)) /\
  (* SFTP *)
  (SFTPBackupSettings.Host sftp = EmptyString ->
   Validate sftp = (sftp, Some (errorString (field_error "sftp" "host")))) /\
  (SFTPBackupSettings.Host sftp ≠ EmptyString ->
   SFTPBackupSettings.Username sftp = EmptyString ->
   snd (Validate sftp) = Some (errorString (field_error "sftp" "username"))) /\
  (SFTPBackupSettings.Host sftp ≠ EmptyString -> SFTPBackupSettings.Port sftp = 0%Z ->
   SFTPBackupSettings.Port (fst (Validate sftp)) = 22%Z) /\
  (SFTPBackupSettings.Host sftp ≠ EmptyString ->
   SFTPBackupSettings.Username sftp ≠ EmptyString ->
   SFTPBackupSettings.Port sftp = 0%Z ->
   Validate sftp = (SFTPBackupSettings.with_Port 22 sftp, None)) /\
  (SFTPBackupSettings.Host sftp ≠ EmptyString ->
   SFTPBackupSettings.Username sftp ≠ EmptyString ->
   SFTPBackupSettings.Port sftp ≠ 0%Z ->
   Validate sftp = (sftp, None)) /\
  (* Rsync *)
  (RsyncBackupSettings.Path rsync = EmptyString ->
   Validate rsync = (rsync, Some (errorString (field_error "rsync" "path")))) /\
  (RsyncBackupSettings.Path rsync ≠ EmptyString ->
   RsyncBackupSettings.Host rsync ≠ EmptyString ->
   RsyncBackupSettings.Port rsync = 0%Z ->
   Validate rsync = (RsyncBackupSettings.with_Port 22 rsync, None)) /\
  (RsyncBackupSettings.Path rsync ≠ EmptyString ->
   RsyncBackupSettings.Host rsync = EmptyString ->
   Validate rsync = (rsync, None)) /\
  (RsyncBackupSettings.Path rsync ≠ EmptyString ->
   RsyncBackupSettings.Port rsync ≠ 0%Z ->
   Validate rsync = (rsync, None)) /\
  (* Local, S3, Google Drive *)
  (LocalBackupSettings.Path loc = EmptyString ->
   Validate loc = (loc, Some (errorString (field_error "local" "path")))) /\
  (LocalBackupSettings.Path loc ≠ EmptyString -> Validate loc = (loc, None)) /\
  (S3BackupSettings.Bucket s3 = EmptyString ->
   Validate s3 = (s3, Some (errorString (field_error "s3" "bucket")))) /\
  (S3BackupSettings.Bucket s3 ≠ EmptyString ->
   S3BackupSettings.Region s3 = EmptyString ->
   Validate s3 = (s3, Some (errorString (field_error "s3" "region")))) /\
  (S3BackupSettings.Bucket s3 ≠ EmptyString ->
   S3BackupSettings.Region s3 ≠ EmptyString ->
   Validate s3 = (s3, None)) /\
  (GoogleDriveBackupSettings.CredentialsPath gd = EmptyString ->
   Validate gd = (gd, Some (errorString (field_error "gdrive" "credentials path")))) /\
  (GoogleDriveBackupSettings.CredentialsPath gd ≠ EmptyString ->
   Validate gd = (gd, None)) /\
  (* the messages *)
  NoDup (map snd required_field_errors) /\
  Forall (fun r => Contains (snd r) (snd (fst r)) = true) required_field_errors.
Proof.
  unfold Validate, FTPBackupSettings_target, SFTPBackupSettings_target,
    RsyncBackupSettings_target, LocalBackupSettings_target,
    S3BackupSettings_target, GoogleDriveBackupSettings_target.
  unfold FTPBackupSettings.Validate, SFTPBackupSettings.Validate,
    RsyncBackupSettings.Validate, LocalBackupSettings.Validate,
    S3BackupSettings.Validate, GoogleDriveBackupSettings.Validate.
  repeat match goal with |- _ /\ _ => split end;
    try (intros; validate_cases; simpl; validate_cases; reflexivity).
  - intros H1 H2. validate_cases.
    destruct (SFTPBackupSettings.Port sftp =? 0)%Z; simpl; validate_cases;
      reflexivity.
  - intros H1 H2. validate_cases. simpl.
    destruct (String.eqb (SFTPBackupSettings.Username sftp) EmptyString);
      reflexivity.
  - intros H1 H2. validate_cases. rewrite andb_false_r. reflexivity.
  - apply (bool_decide_unpack _). vm_compute. reflexivity.
  - repeat constructor.
Qed.

Lemma target_defaulting_witness :
  Validate ftp_nas = (FTPBackupSettings.with_Port 21 ftp_nas, None) /\
  Validate sftp_nas = (SFTPBackupSettings.with_Port 22 sftp_nas, None) /\
  Validate rsync_remote = (RsyncBackupSettings.with_Port 22 rsync_remote, None) /\
  Validate local_unset =
    (local_unset, Some (errorString "local backup path cannot be empty")) /\
  Validate s3_unset = (s3_unset, Some (errorString "S3 bucket name cannot be empty")) /\
  Validate gdrive_unset =
    (gdrive_unset,
     Some (errorString "google drive credentials path cannot be empty")).
Proof.
  pose proof (target_defaulting_and_required_fields
                local_unset ftp_nas sftp_nas s3_unset rsync_remote gdrive_unset)
    as (_ & Hftp & _ & _ & _ & _ & Hsftp & _ & _ & Hrsync & _ & _ & Hloc & _
        & Hs3 & _ & _ & Hgd & _).
  split; [apply Hftp; [discriminate | reflexivity]|].
  split; [apply Hsftp; [discriminate | discriminate | reflexivity]|].
  split; [apply Hrsync; [discriminate | discriminate | reflexivity]|].
  split; [apply Hloc; reflexivity|].
  split; [apply Hs3; reflexivity|].
  apply Hgd; reflexivity.
Defined.

Example ftp_empty_host_names_host :
  snd (Validate (FTPBackupSettings.mk EmptyString 0 "bird" "secret" "/backups" false))
  = Some (errorString "FTP host cannot be empty").
Proof. reflexivity. Qed.

Example sftp_port_set_before_username_check :
  Validate (SFTPBackupSettings.mk "nas.local" 0 EmptyString EmptyString EmptyString "/b")
  = (SFTPBackupSettings.mk "nas.local" 22 EmptyString EmptyString EmptyString "/b",
     Some (errorString "SFTP username cannot be empty")).
Proof. reflexivity. Qed.

Example rsync_local_keeps_port_zero :
  Validate (RsyncBackupSettings.mk EmptyString 0 EmptyString "/backups" EmptyString [])
  = (RsyncBackupSettings.mk EmptyString 0 EmptyString "/backups" EmptyString [], None).
Proof. reflexivity. Qed.

(** ** The secret generator *)

(** *** Bit arithmetic of the base64 groups *)

Section Bits.
Local Open Scope N_scope.
#[local] Ltac Zify.zify_post_hook ::= Z.to_euclidean_division_equations.

Lemma lor_mul_add (x y k : N) : y < 2 ^ k -> N.lor (x * 2 ^ k) y = x * 2 ^ k + y.
Proof.
  intros Hy.
  assert (Hland : N.land (x * 2 ^ k) y = 0).
  { apply N.bits_inj. intros n. rewrite N.land_spec, N.bits_0.
    destruct (N.lt_ge_cases n k) as [Hlt|Hge].
    - rewrite N.mul_pow2_bits_low by assumption. reflexivity.
    - rewrite andb_comm.
      replace (N.testbit y n) with false; [reflexivity|].
      symmetry. destruct (N.eq_dec y 0) as [->|Hy0]; [apply N.bits_0|].
      apply N.bits_above_log2. apply N.log2_lt_pow2; [lia|].
      eapply N.lt_le_trans; [exact Hy|]. apply N.pow_le_mono_r; lia. }
  rewrite <- N.lxor_lor by assumption.
  symmetry. apply N.add_nocarry_lxor. assumption.
Qed.

Lemma uint_lt (b : byte) : uint b < 256.
Proof. unfold uint. pose proof (Byte.to_N_bounded b). lia. Qed.

Lemma land_63 (v : N) : N.land v 63 = v mod 64.
Proof. change 63 with (N.ones 6). rewrite N.land_ones. reflexivity. Qed.

Lemma land_255 (v : N) : N.land v 255 = v mod 256.
Proof. change 255 with (N.ones 8). rewrite N.land_ones. reflexivity. Qed.

(** The 24-bit value of a group of three bytes. *)
Lemma group_value (a b c : N) : a < 256 -> b < 256 -> c < 256 ->
  N.lor (N.lor (N.shiftl a 16) (N.shiftl b 8)) c = a * 65536 + b * 256 + c.
Proof.
  intros Ha Hb Hc. rewrite !N.shiftl_mul_pow2.
  rewrite (lor_mul_add a (b * 2 ^ 8) 16) by (change (2 ^ 8) with 256; change (2 ^ 16) with 65536; lia).
  replace (a * 2 ^ 16 + b * 2 ^ 8) with ((a * 256 + b) * 2 ^ 8)
    by (change (2 ^ 8) with 256; change (2 ^ 16) with 65536; lia).
  rewrite lor_mul_add by (change (2 ^ 8) with 256; lia).
  change (2 ^ 8) with 256. lia.
Qed.

Lemma sextets_value (s0 s1 s2 s3 : N) : s0 < 64 -> s1 < 64 -> s2 < 64 -> s3 < 64 ->
  N.lor (N.lor (N.lor (N.shiftl s0 18) (N.shiftl s1 12)) (N.shiftl s2 6)) s3
  = s0 * 262144 + s1 * 4096 + s2 * 64 + s3.
Proof.
  intros H0 H1 H2 H3. rewrite !N.shiftl_mul_pow2.
  rewrite (lor_mul_add s0 (s1 * 2 ^ 12) 18)
    by (change (2 ^ 12) with 4096; change (2 ^ 18) with 262144; lia).
  replace (s0 * 2 ^ 18 + s1 * 2 ^ 12) with ((s0 * 64 + s1) * 2 ^ 12)
    by (change (2 ^ 12) with 4096; change (2 ^ 18) with 262144; lia).
  rewrite (lor_mul_add _ (s2 * 2 ^ 6) 12)
    by (change (2 ^ 6) with 64; change (2 ^ 12) with 4096; lia).
  replace ((s0 * 64 + s1) * 2 ^ 12 + s2 * 2 ^ 6) with ((s0 * 4096 + s1 * 64 + s2) * 2 ^ 6)
    by (change (2 ^ 6) with 64; change (2 ^ 12) with 4096; lia).
  rewrite lor_mul_add by (change (2 ^ 6) with 64; lia).
  change (2 ^ 6) with 64. lia.
Qed.

Lemma decode_encode_char (v : N) : v < 64 -> decode_char (encode_char v) = Some v.
Proof.
  intros Hv. rewrite <- (N2Nat.id v). assert (Hn : (N.to_nat v < 64)%nat) by lia.
  generalize dependent (N.to_nat v). clear. intros n Hn.
  do 64 (destruct n as [|n]; [vm_compute; reflexivity|]). lia.
Qed.

Lemma byte_of_uint (n : N) (b : byte) : n mod 256 = uint b -> byte_of n = b.
Proof.
  intros H. unfold byte_of. rewrite land_255, H. unfold uint.
  rewrite Byte.of_to_N. reflexivity.
Qed.

(** The four sextets of a group, read off the three bytes. *)
Lemma sextet0 (a b c : N) : a < 256 -> b < 256 -> c < 256 ->
  N.land (N.shiftr (a * 65536 + b * 256 + c) 18) 63 = a / 4.
Proof.
  intros. rewrite land_63, N.shiftr_div_pow2. change (2 ^ 18) with 262144. lia.
Qed.

Lemma sextet1 (a b c : N) : a < 256 -> b < 256 -> c < 256 ->
  N.land (N.shiftr (a * 65536 + b * 256 + c) 12) 63 = (a mod 4) * 16 + b / 16.
Proof.
  intros. rewrite land_63, N.shiftr_div_pow2. change (2 ^ 12) with 4096. lia.
Qed.

Lemma sextet2 (a b c : N) : a < 256 -> b < 256 -> c < 256 ->
  N.land (N.shiftr (a * 65536 + b * 256 + c) 6) 63 = (b mod 16) * 4 + c / 64.
Proof.
  intros. rewrite land_63, N.shiftr_div_pow2. change (2 ^ 6) with 64. lia.
Qed.

Lemma sextet3 (a b c : N) : a < 256 -> b < 256 -> c < 256 ->
  N.land (a * 65536 + b * 256 + c) 63 = c mod 64.
Proof. intros. rewrite land_63. lia. Qed.

Lemma sextet_bounds (a b c : N) : a < 256 -> b < 256 -> c < 256 ->
  a / 4 < 64 /\ (a mod 4) * 16 + b / 16 < 64 /\ (b mod 16) * 4 + c / 64 < 64
  /\ c mod 64 < 64.
Proof. intros. repeat split; lia. Qed.

(** Putting the sextets together again gives the bytes back. *)
Lemma bytes_of_sextets (a b c : N) : a < 256 -> b < 256 -> c < 256 ->
  let val :=
    N.lor (N.lor (N.lor (N.shiftl (a / 4) 18) (N.shiftl ((a mod 4) * 16 + b / 16) 12))
             (N.shiftl ((b mod 16) * 4 + c / 64) 6)) (c mod 64) in
  (N.shiftr val 16) mod 256 = a /\ (N.shiftr val 8) mod 256 = b /\ val mod 256 = c.
Proof.
  intros Ha Hb Hc val. subst val.
  rewrite sextets_value by lia.
  replace (a / 4 * 262144 + (a mod 4 * 16 + b / 16) * 4096
           + (b mod 16 * 4 + c / 64) * 64 + c mod 64)
    with (a * 65536 + b * 256 + c) by lia.
  rewrite !N.shiftr_div_pow2. change (2 ^ 16) with 65536. change (2 ^ 8) with 256.
  repeat split; lia.
Qed.
End Bits.

Lemma list_ind3 {A} (P : list A -> Prop) :
  P [] -> (forall a, P [a]) -> (forall a b, P [a; b]) ->
  (forall a b c l, P l -> P (a :: b :: c :: l)) ->
  forall l, P l.
Proof.
  intros H0 H1 H2 H3 l.
  cut (P l /\ (forall a, P (a :: l)) /\ (forall a b, P (a :: b :: l))); [tauto|].
  induction l as [|x l (IH0 & IH1 & IH2)]; [auto|].
  split; [apply IH1|]. split; [intros a; apply IH2|]. intros a b. apply H3, IH0.
Qed.

Lemma encode_char_url_safe (v : N) : is_url_safe (encode_char v) = true.
Proof.
  unfold encode_char. generalize (N.to_nat v). intros n.
  do 64 (destruct n as [|n]; [vm_compute; reflexivity|]).
  reflexivity.
Qed.

Lemma url_safe_not_pad (c : ascii) : is_url_safe c = true -> Ascii.eqb c padChar = false.
Proof.
  intros H. destruct (Ascii.eqb c padChar) eqn:Heq; [|reflexivity].
  apply Ascii.eqb_eq in Heq. subst c. vm_compute in H. discriminate.
Qed.

Lemma EncodeToString_length (src : list byte) :
  String.length (EncodeToString src) = (4 * length src + 2) / 3.
Proof.
  induction src as [| a | a b | a b c l IH] using list_ind3; try reflexivity.
  cbn [EncodeToString String.length length]. rewrite IH.
  replace (4 * S (S (S (length l))) + 2) with ((4 * length l + 2) + 4 * 3) by lia.
  rewrite Nat.div_add by lia. lia.
Qed.

Lemma EncodeToString_url_safe (src : list byte) :
  string_all is_url_safe (EncodeToString src) = true.
Proof.
  unfold string_all.
  induction src as [| a | a b | a b c l IH] using list_ind3;
    cbn [EncodeToString list_ascii_of_string forallb];
    rewrite ?encode_char_url_safe, ?IH; reflexivity.
Qed.

Lemma string_all_impl (p q : ascii -> bool) (s : string) :
  (forall c, p c = true -> q c = true) -> string_all p s = true -> string_all q s = true.
Proof.
  unfold string_all. intros Hpq. induction (list_ascii_of_string s) as [|c l IH]; [done|].
  simpl. rewrite !andb_true_iff. intros [H1 H2]. split; auto.
Qed.

Lemma DecodeString_EncodeToString (src : list byte) :
  DecodeString (EncodeToString src) = Some src.
Proof.
  induction src as [| a | a b | a b c l IH] using list_ind3.
  - reflexivity.
  - cbn [EncodeToString DecodeString].
    pose proof (uint_lt a) as Ha.
    replace (N.shiftl (uint a) 16) with (uint a * 65536 + 0 * 256 + 0)%N
      by (rewrite N.shiftl_mul_pow2; change (2 ^ 16)%N with 65536%N; lia).
    rewrite sextet0, sextet1 by lia.
    destruct (sextet_bounds (uint a) 0 0) as (B0 & B1 & _); [lia..|].
    rewrite !decode_encode_char by assumption. cbn [mbind option_bind].
    destruct (bytes_of_sextets (uint a) 0 0) as (H1 & _ & _); [lia..|].
    cbn zeta in H1. change (0 mod 16 * 4 + 0 / 64)%N with 0%N in H1.
    change (0 mod 64)%N with 0%N in H1. change (N.shiftl 0 6) with 0%N in H1.
    rewrite !N.lor_0_r in H1.
    rewrite (byte_of_uint _ a); [reflexivity|]. exact H1.
  - cbn [EncodeToString DecodeString].
    pose proof (uint_lt a) as Ha. pose proof (uint_lt b) as Hb.
    replace (N.lor (N.shiftl (uint a) 16) (N.shiftl (uint b) 8))
      with (uint a * 65536 + uint b * 256 + 0)%N
      by (rewrite <- (group_value (uint a) (uint b) 0), N.lor_0_r by lia; reflexivity).
    rewrite sextet0, sextet1, sextet2 by lia.
    destruct (sextet_bounds (uint a) (uint b) 0) as (B0 & B1 & B2 & _); [lia..|].
    rewrite !decode_encode_char by assumption. cbn [mbind option_bind].
    destruct (bytes_of_sextets (uint a) (uint b) 0) as (H1 & H2 & _); [lia..|].
    cbn zeta in H1, H2. change (0 mod 64)%N with 0%N in H1, H2.
    change (0 / 64)%N with 0%N in *.
    rewrite !N.lor_0_r in H1, H2.
    rewrite (byte_of_uint _ a), (byte_of_uint _ b); [reflexivity| |].
    + exact H2.
    + exact H1.
  - cbn [EncodeToString DecodeString].
    pose proof (uint_lt a) as Ha. pose proof (uint_lt b) as Hb.
    pose proof (uint_lt c) as Hc.
    rewrite group_value by assumption.
    rewrite sextet0, sextet1, sextet2, sextet3 by lia.
    destruct (sextet_bounds (uint a) (uint b) (uint c)) as (B0 & B1 & B2 & B3);
      [lia..|].
    rewrite !decode_encode_char by assumption. cbn [mbind option_bind].
    rewrite IH. cbn [mbind option_bind].
    destruct (bytes_of_sextets (uint a) (uint b) (uint c)) as (H1 & H2 & H3); [lia..|].
    cbn zeta in H1, H2, H3.
    rewrite (byte_of_uint _ a), (byte_of_uint _ b), (byte_of_uint _ c);
      [reflexivity| | |]; rewrite ?land_255; assumption.
Qed.

Example EncodeToString_Man :
  EncodeToString ["M"%byte; "a"%byte; "n"%byte] = "TWFu".
Proof. reflexivity. Qed.

Example EncodeToString_fbff : EncodeToString [xfb; xff] = "-_8".
Proof. reflexivity. Qed.

(** C7. When the entropy source delivers, [GenerateRandomSecret] returns a
    string of exactly 43 characters, all of the URL-safe alphabet, none of
    them the padding character, from which the 32 bytes read can be
    recovered; when the source fails it returns the empty string (and
    logs the System-category error) instead of an error. *)
Theorem GenerateRandomSecret_shape (src : Entropy) (w : World) :
  match src with
  | Some f =>
      let secret := EncodeToString (map f (seq 0 32)) in
      GenerateRandomSecret src w = (Ret secret, w) /\
      String.length secret = 43 /\
      string_all is_url_safe secret = true /\
      string_all (fun c => negb (Ascii.eqb c padChar)) secret = true /\
      DecodeString secret = Some (map f (seq 0 32))
  | None =>
      GenerateRandomSecret src w =
        (Ret EmptyString,
         set_output
           (output w ++ [("Failed to generate random secret: %v", ArgError entropy_failure)])
           w) /\
      errors.CategoryOf entropy_failure = Some CategorySystem
  end.
Proof.
  destruct src as [f|]; [|split; reflexivity].
  cbn zeta. split; [reflexivity|].
  split; [rewrite EncodeToString_length; reflexivity|].
  split; [apply EncodeToString_url_safe|].
  split; [|apply DecodeString_EncodeToString].
  eapply string_all_impl; [|apply EncodeToString_url_safe].
  intros c Hc. rewrite (url_safe_not_pad c Hc). reflexivity.
Qed.

(** ** Frames: what a computation leaves alone *)

Section Frames.

Context {X : Type} (f : World -> X).

Lemma preserves_ret {A} (a : A) : preserves f (ret a).
Proof. intros w r w' [= _ <-]. reflexivity. Qed.

Lemma preserves_panic {A} (reason : string) : preserves f (@panic A reason).
Proof. intros w r w' [= _ <-]. reflexivity. Qed.

Lemma preserves_get {A} (g : World -> A) : preserves f (get g).
Proof. intros w r w' [= _ <-]. reflexivity. Qed.

Lemma preserves_step {A} (c : M A) :
  (forall w, f (snd (c w)) = f w) -> preserves f c.
Proof. intros H w r w' Hc. specialize (H w). rewrite Hc in H. exact H. Qed.

Lemma preserves_modify (g : World -> World) :
  (forall w, f (g w) = f w) -> preserves f (modify g).
Proof. intros H. apply preserves_step. exact H. Qed.

Lemma preserves_bind {A B} (c : M A) (k : A -> M B) :
  preserves f c -> (forall a, preserves f (k a)) -> preserves f (bind c k).
Proof.
  intros Hc Hk w r w'. unfold bind.
  destruct (c w) as [[a|reason|code|] w1] eqn:Hcw; pose proof (Hc _ _ _ Hcw) as H1.
  - intros Hka. rewrite (Hk _ _ _ _ Hka). exact H1.
  - intros [= _ <-]. exact H1.
  - intros [= _ <-]. exact H1.
  - intros [= _ <-]. exact H1.
Qed.

Lemma preserves_defer {A} (d : World -> World) (c : M A) :
  (forall w, f (d w) = f w) -> preserves f c -> preserves f (defer d c).
Proof.
  intros Hd Hc w r w'. unfold defer.
  destruct (c w) as [[a|reason|code|] w1] eqn:Hcw; pose proof (Hc _ _ _ Hcw) as H1;
    intros [= _ <-]; rewrite ?Hd; exact H1.
Qed.

End Frames.

Ltac preserves_prim :=
  apply preserves_step; intros ?;
  repeat (simpl; unfold ret, get, modify; case_match); reflexivity.

Create HintDb frame.

Ltac preserves_tac :=
  repeat first
    [ solve [auto with frame]
    | apply preserves_ret
    | apply preserves_panic
    | apply preserves_get
    | apply preserves_bind; [|intros ?]
    | apply preserves_defer; [intros ?|]
    | match goal with
      | |- preserves _ (match ?x with _ => _ end) => destruct x
      end ].

Lemma log_Printf_store format arg : preserves store_of (log_Printf format arg).
Proof. by apply preserves_modify. Qed.

Lemma log_Fatalf_store {A} format arg : preserves store_of (@log_Fatalf A format arg).
Proof. by apply preserves_step. Qed.

#[local] Hint Resolve log_Printf_store log_Fatalf_store : frame.

Lemma GenerateRandomSecret_store src : preserves store_of (GenerateRandomSecret src).
Proof.
  unfold GenerateRandomSecret. destruct (rand_Read src _) as [b [e|]];
    preserves_tac; auto with frame.
Qed.

Lemma os_CreateTemp_store r dir pattern : preserves store_of (os_CreateTemp r dir pattern).
Proof. unfold os_CreateTemp. destruct r; [apply preserves_ret|]. preserves_prim. Qed.

Lemma File_Write_store fault name data : preserves store_of (File_Write fault name data).
Proof. by apply preserves_step. Qed.

Lemma File_Close_store fault name : preserves store_of (File_Close fault name).
Proof. apply preserves_ret. Qed.

Lemma os_Rename_store fault a b : preserves store_of (os_Rename fault a b).
Proof. unfold os_Rename. preserves_prim. Qed.

Lemma os_Remove_store fault a : preserves store_of (os_Remove fault a).
Proof. unfold os_Remove. preserves_prim. Qed.

Lemma os_MkdirAll_store fault p perm : preserves store_of (os_MkdirAll fault p perm).
Proof. unfold os_MkdirAll. preserves_prim. Qed.

Lemma os_WriteFile_store fault name data perm :
  preserves store_of (os_WriteFile fault name data perm).
Proof. unfold os_WriteFile. preserves_prim. Qed.

Lemma viper_ReadInConfig_store r : preserves store_of (viper_ReadInConfig r).
Proof.
  unfold viper_ReadInConfig. destruct r; preserves_tac. by apply preserves_modify.
Qed.

Lemma viper_Set_store k v : preserves store_of (viper_Set k v).
Proof. by apply preserves_modify. Qed.

Lemma viper_AddConfigPath_store p : preserves store_of (viper_AddConfigPath p).
Proof. by apply preserves_modify. Qed.

#[local] Hint Resolve GenerateRandomSecret_store os_CreateTemp_store
  File_Write_store File_Close_store os_Rename_store os_Remove_store
  os_MkdirAll_store os_WriteFile_store viper_ReadInConfig_store viper_Set_store
  viper_AddConfigPath_store : frame.

Lemma add_config_paths_store ps : preserves store_of (add_config_paths ps).
Proof.
  induction ps as [|p ps IH]; simpl; preserves_tac; auto with frame.
Qed.

Lemma remove_temp_store fault name : preserves store_of (remove_temp fault name).
Proof. unfold remove_temp. preserves_tac; auto with frame. Qed.

Lemma remove_temp_snd fault name w :
  store_of (snd (remove_temp fault name w)) = store_of w.
Proof.
  destruct (remove_temp fault name w) as [r w'] eqn:Hr.
  apply (remove_temp_store _ _ _ _ _ Hr).
Qed.

Lemma getDefaultConfig_store E : preserves store_of (getDefaultConfig E).
Proof. unfold getDefaultConfig. preserves_tac; auto with frame. Qed.

#[local] Hint Resolve add_config_paths_store remove_temp_store
  getDefaultConfig_store : frame.

Lemma createDefaultConfig_store E o : preserves store_of (createDefaultConfig E o).
Proof. unfold createDefaultConfig. preserves_tac; auto with frame. Qed.

Lemma initViper_store E o : preserves store_of (initViper E o).
Proof.
  unfold initViper. preserves_tac; auto with frame; by apply preserves_modify.
Qed.

Lemma SaveYAMLConfig_store E o configPath settings :
  preserves store_of (SaveYAMLConfig E o configPath settings).
Proof.
  unfold SaveYAMLConfig. preserves_tac; auto with frame.
  - apply remove_temp_snd.
  - apply preserves_step. intros w. unfold run_moveFile.
    by destruct (moveFile E _ _ _).
Qed.

#[local] Hint Resolve createDefaultConfig_store initViper_store
  SaveYAMLConfig_store : frame.

(** ** Classification of validation messages *)

Lemma HasPrefix_spec (p s : string) :
  HasPrefix s p = true <-> exists t, s = p +:+ t.
Proof.
  revert s. induction p as [|c p IH]; intros s; simpl.
  - split; [intros _; exists s; reflexivity | reflexivity].
  - destruct s as [|d s]; simpl.
    + split; [discriminate | intros [t Ht]; discriminate].
    + rewrite andb_true_iff, Ascii.eqb_eq, IH. split.
      * intros [-> [t ->]]. by exists t.
      * intros [t [= -> ->]]. split; [done | by exists t].
Qed.

Lemma Contains_unfold (s sub : string) :
  Contains s sub =
  HasPrefix s sub || match s with EmptyString => false | String _ s' => Contains s' sub end.
Proof. destruct s; reflexivity. Qed.

(** [Contains] is the substring test. *)
Lemma Contains_spec (s sub : string) : Contains s sub = true <-> occurs_in sub s.
Proof.
  unfold occurs_in. induction s as [|c s IH]; rewrite Contains_unfold, orb_true_iff.
  - rewrite HasPrefix_spec. split.
    + intros [[t Ht] | ?]; [|done]. by exists EmptyString, t.
    + intros (pre & post & H). left. destruct pre; [by exists post|discriminate].
  - rewrite HasPrefix_spec, IH. split.
    + intros [[t Ht] | (pre & post & ->)].
      * by exists EmptyString, t.
      * by exists (String c pre), post.
    + intros (pre & post & H). destruct pre as [|d pre]; simpl in H.
      * left. by exists post.
      * right. injection H as -> ->. by exists pre, post.
Qed.

Example Contains_not_supported :
  Contains "locale xx is not supported" "not supported" = true.
Proof. reflexivity. Qed.

Example Contains_needs_the_whole_word : Contains "fall back to en-uk" "fallback" = false.
Proof. reflexivity. Qed.

Example Contains_empty (s : string) : Contains s EmptyString = true.
Proof. by destruct s. Qed.

Lemma is_warning_spec (m : string) :
  is_warning m = true <-> occurs_in "fallback" m \/ occurs_in "not supported" m.
Proof. unfold is_warning. by rewrite orb_true_iff, !Contains_spec. Qed.

Lemma record_warnings_nil (s : Settings.t) : record_warnings [] s = s.
Proof. destruct s. unfold record_warnings. simpl. by rewrite app_nil_r. Qed.

Lemma record_warnings_cons (m : string) (msgs : list string) (s : Settings.t) :
  record_warnings msgs (record_warnings [m] s) = record_warnings (m :: msgs) s.
Proof. unfold record_warnings. simpl. by rewrite <- app_assoc. Qed.

Lemma set_output_id (w : World) : set_output (output w ++ []) w = w.
Proof. destruct w. unfold set_output. simpl. by rewrite app_nil_r. Qed.

(** The loop of [Load]: it records and logs the warnings that come before
    the first other message, and stops there with the error. *)
Lemma classify_messages_run (err : error) (msgs : list string) (s : Settings.t)
  (w : World) :
  classify_messages err msgs s w =
    (Ret (record_warnings (leading_warnings msgs) s,
          fatal_validation_error err <$> first_fatal msgs),
     set_output (output w ++ warning_lines (leading_warnings msgs)) w).
Proof.
  revert s w. induction msgs as [|m msgs IH]; intros s w; simpl.
  - by rewrite record_warnings_nil, set_output_id.
  - unfold first_fatal. simpl. destruct (is_warning m) eqn:Hm; simpl.
    + unfold bind, log_Printf, modify. rewrite IH.
      fold (record_warnings [m] s). rewrite record_warnings_cons.
      unfold first_fatal. simpl. by rewrite <- app_assoc.
    + by rewrite record_warnings_nil, set_output_id.
Qed.

Lemma leading_warnings_all (msgs : list string) :
  forallb is_warning msgs = true -> leading_warnings msgs = msgs.
Proof.
  induction msgs as [|m msgs IH]; simpl; [done|].
  rewrite andb_true_iff. intros [-> H]. by rewrite IH.
Qed.

Lemma first_fatal_none (msgs : list string) :
  first_fatal msgs = None <-> forallb is_warning msgs = true.
Proof.
  unfold first_fatal. induction msgs as [|m msgs IH]; simpl; [done|].
  destruct (is_warning m); simpl; [exact IH | done].
Qed.

Lemma first_fatal_some (msgs : list string) (m : string) :
  first_fatal msgs = Some m -> m ∈ msgs /\ is_warning m = false.
Proof.
  unfold first_fatal. intros H. apply List.find_some in H as [Hin Hm].
  split; [by apply list_elem_of_In | by apply negb_true_iff].
Qed.

(** ** [Load] *)

Lemma Load_run (E : Env) (o : LoadFaults) (w : World) :
  settingsMutex w = mkRWMutex 0 false ->
  Load E o w =
    defer (Unlock settingsMutex set_settingsMutex) (Load_locked E o) (Load_entered w).
Proof.
  intros Hfree. unfold Load, bind, modify, Lock. simpl. rewrite Hfree. reflexivity.
Qed.

Lemma Load_blocked (E : Env) (o : LoadFaults) (w : World) :
  settingsMutex w ≠ mkRWMutex 0 false ->
  Load E o w = (Block, set_loadCalls (S (loadCalls w)) w).
Proof.
  intros Hbusy. unfold Load, bind, modify, Lock. simpl.
  destruct (settingsMutex w) as [[|n] [|]]; simpl; try reflexivity. done.
Qed.

Lemma Load_locked_install (E : Env) (o : LoadFaults) (w w' : World)
  (r : Result (option Settings.t * option error)) :
  Load_locked E o w = (r, w') ->
  install_outcome (settingsInstance w) r (settingsInstance w').
Proof.
  unfold Load_locked, bind.
  destruct (initViper E o w) as [[[e|]|reason|code|] w1] eqn:Hinit;
    pose proof (initViper_store E o _ _ _ Hinit) as [= Hinst _ _ _ _];
    try (intros [= <- <-]; simpl; exact Hinst).
  simpl. destruct (viper_Unmarshal E (viper w1) Settings.zero) as [e|s];
    [intros [= <- <-]; simpl; exact Hinst|].
  destruct (ValidateSettings E s) as [s' [err|]].
  - destruct (errors.AsValidationError err) as [msgs|].
    + rewrite classify_messages_run.
      destruct (first_fatal msgs) as [m|]; intros [= <- <-]; simpl; [exact Hinst|done].
    + intros [= <- <-]. simpl. exact Hinst.
  - intros [= <- <-]. reflexivity.
Qed.

Lemma Load_instance (E : Env) (o : LoadFaults) (w w' : World)
  (r : Result (option Settings.t * option error)) :
  Load E o w = (r, w') ->
  install_outcome (settingsInstance w) r (settingsInstance w').
Proof.
  intros HLoad.
  destruct (decide (settingsMutex w = mkRWMutex 0 false)) as [Hfree|Hbusy].
  - rewrite (Load_run E o w Hfree) in HLoad. unfold defer in HLoad.
    destruct (Load_locked E o (Load_entered w)) as [r1 w1] eqn:Hlocked.
    apply Load_locked_install in Hlocked. simpl in Hlocked.
    destruct r1 as [[[s|] [err|]]|reason|code|]; simpl in Hlocked;
      injection HLoad as <- <-; simpl; done.
  - rewrite (Load_blocked E o w Hbusy) in HLoad. by injection HLoad as <- <-.
Qed.

(** C3. [Load] replaces the installed instance only when it succeeds: it
    returns either a settings value and no error, and then that value is
    the installed instance, or no value and an error, and then the
    installed instance is the one from before the call (as it is when the
    call panics, exits or waits for the lock).  An error of [initViper], of
    [viper.Unmarshal] or a validation error that is not made of warnings
    only each make [Load] return an error. *)
Theorem Load_install_atomicity (E : Env) (o : LoadFaults) (w w' : World)
  (r : Result (option Settings.t * option error)) :
  Load E o w = (r, w') ->
  match r with
  | Ret (Some s, None) => settingsInstance w' = Some s
  | Ret (None, Some _) => settingsInstance w' = settingsInstance w
  | Ret _ => False
  | Panic _ | Exit _ | Block => settingsInstance w' = settingsInstance w
  end /\
  (settingsMutex w = mkRWMutex 0 false ->
   (forall e w1,
      initViper E o (Load_entered w) = (Ret (Some e), w1) ->
      exists err, r = Ret (None, Some err) /\
                  errors.CategoryOf err = Some CategoryConfiguration) /\
   (forall e w1,
      initViper E o (Load_entered w) = (Ret None, w1) ->
      viper_Unmarshal E (viper w1) Settings.zero = inl e ->
      exists err, r = Ret (None, Some err) /\
                  errors.CategoryOf err = Some CategoryConfiguration) /\
   (forall w1 s s' verr,
      initViper E o (Load_entered w) = (Ret None, w1) ->
      viper_Unmarshal E (viper w1) Settings.zero = inr s ->
      ValidateSettings E s = (s', Some verr) ->
      (forall msgs, errors.AsValidationError verr = Some msgs ->
                    forallb is_warning msgs = false) ->
      exists err, r = Ret (None, Some err) /\
                  errors.CategoryOf err = Some CategoryValidation)).
Proof.
  intros HLoad. split.
  - apply (Load_instance E o w w' r HLoad).
  - intros Hfree. rewrite (Load_run E o w Hfree) in HLoad.
    unfold defer, Load_locked, bind in HLoad.
    repeat split.
    + intros e w1 Hinit. rewrite Hinit in HLoad. injection HLoad as <- <-.
      eexists. split; reflexivity.
    + intros e w1 Hinit Hun. rewrite Hinit in HLoad. simpl in HLoad.
      rewrite Hun in HLoad. injection HLoad as <- <-.
      eexists. split; reflexivity.
    + intros w1 s s' verr Hinit Hun Hval Hfatal. rewrite Hinit in HLoad.
      simpl in HLoad. rewrite Hun, Hval in HLoad.
      destruct (errors.AsValidationError verr) as [msgs|] eqn:Has.
      * rewrite classify_messages_run in HLoad.
        destruct (first_fatal msgs) as [m|] eqn:Hm.
        -- injection HLoad as <- <-. eexists. split; reflexivity.
        -- apply first_fatal_none in Hm. rewrite (Hfatal msgs eq_refl) in Hm.
           discriminate.
      * injection HLoad as <- <-. eexists. split; reflexivity.
Qed.

Lemma Load_install_atomicity_witness :
  settingsInstance (snd (Load demo_Env unreadable_document loaded_World))
  = settingsInstance loaded_World /\
  settingsInstance (snd (Load demo_Env unsupported_locale loaded_World))
  = Some (record_warnings [locale_warning] (with_Locale "en-uk" Settings.zero)).
Proof.
  split.
  - pose proof (Load_install_atomicity demo_Env unreadable_document loaded_World
                  (snd (Load demo_Env unreadable_document loaded_World))
                  (fst (Load demo_Env unreadable_document loaded_World))) as H.
    destruct H as [H _]; [by destruct (Load _ _ _)|].
    vm_compute in H. vm_compute. exact H.
  - pose proof (Load_install_atomicity demo_Env unsupported_locale loaded_World
                  (snd (Load demo_Env unsupported_locale loaded_World))
                  (fst (Load demo_Env unsupported_locale loaded_World))) as H.
    destruct H as [H _]; [by destruct (Load _ _ _)|].
    vm_compute in H. vm_compute. exact H.
Defined.

(** C2. When validation reports a list of messages, [Load] treats each
    message that contains "fallback" or "not supported" as a warning and
    every other message as fatal.  It succeeds exactly when every message
    is a warning, and then all of them, in order, have been appended to
    [ValidationWarnings] of the installed settings; otherwise it returns a
    Validation-category error for the first message that is not a warning
    and installs nothing. *)
Theorem Load_warning_fatal_classification (E : Env) (o : LoadFaults)
  (w w1 : World) (s s' : Settings.t) (verr : error) (msgs : list string) :
  settingsMutex w = mkRWMutex 0 false ->
  initViper E o (Load_entered w) = (Ret None, w1) ->
  viper_Unmarshal E (viper w1) Settings.zero = inr s ->
  ValidateSettings E s = (s', Some verr) ->
  errors.AsValidationError verr = Some msgs ->
  (forall m, is_warning m = true <->
             occurs_in "fallback" m \/ occurs_in "not supported" m) /\
  (forallb is_warning msgs = true ->
   exists w2,
     Load E o w = (Ret (Some (record_warnings msgs s'), None), w2) /\
     settingsInstance w2 = Some (record_warnings msgs s') /\
     Settings.ValidationWarnings (record_warnings msgs s')
     = Settings.ValidationWarnings s' ++ msgs) /\
  (forallb is_warning msgs = false ->
   exists m w2,
     m ∈ msgs /\ is_warning m = false /\
     Load E o w = (Ret (None, Some (fatal_validation_error verr m)), w2) /\
     errors.CategoryOf (fatal_validation_error verr m) = Some CategoryValidation /\
     settingsInstance w2 = settingsInstance w) /\
  ((exists s2 w2, Load E o w = (Ret (Some s2, None), w2)) <->
   forallb is_warning msgs = true).
Proof.
  intros Hfree Hinit Hun Hval Has.
  assert (HLoad : Load E o w =
            match first_fatal msgs with
            | Some m =>
                (Ret (None, Some (fatal_validation_error verr m)),
                 Unlock settingsMutex set_settingsMutex
                   (set_output (output w1 ++ warning_lines (leading_warnings msgs)) w1))
            | None =>
                (Ret (Some (record_warnings (leading_warnings msgs) s'), None),
                 Unlock settingsMutex set_settingsMutex
                   (set_settingsInstance
                      (Some (record_warnings (leading_warnings msgs) s'))
                      (set_output (output w1 ++ warning_lines (leading_warnings msgs)) w1)))
            end).
  { rewrite (Load_run E o w Hfree). unfold defer, Load_locked, bind.
    rewrite Hinit. simpl. rewrite Hun, Hval, Has, classify_messages_run.
    by destruct (first_fatal msgs). }
  pose proof (initViper_store E o _ _ _ Hinit) as [= Hinst _ _ _ _].
  split; [apply is_warning_spec|].
  split; [|split].
  - intros Hall. pose proof (proj2 (first_fatal_none msgs) Hall) as Hnone.
    rewrite Hnone, (leading_warnings_all msgs Hall) in HLoad.
    eexists. split; [exact HLoad|]. split; reflexivity.
  - intros Hnot. destruct (first_fatal msgs) as [m|] eqn:Hm.
    + destruct (first_fatal_some msgs m Hm) as [Hin Hw].
      exists m. eexists. split; [exact Hin|]. split; [exact Hw|].
      split; [exact HLoad|]. split; [reflexivity|]. simpl. exact Hinst.
    + apply first_fatal_none in Hm. congruence.
  - split.
    + intros (s2 & w2 & Hok). rewrite Hok in HLoad.
      destruct (first_fatal msgs) as [m|] eqn:Hm; [discriminate|].
      by apply first_fatal_none.
    + intros Hall. apply first_fatal_none in Hall. rewrite Hall in HLoad.
      eauto.
Qed.

Lemma Load_warning_fatal_classification_witness :
  (exists w2,
     Load demo_Env unsupported_locale fresh_World
     = (Ret (Some (record_warnings [locale_warning]
                     (with_Locale "en-uk" (with_Locale "xx" Settings.zero))), None), w2)) /\
  (exists w2,
     Load demo_Env empty_locale fresh_World
     = (Ret (None, Some (fatal_validation_error (ValidationError [locale_fatal])
                           locale_fatal)), w2)).
Proof.
  split.
  - destruct (Load_warning_fatal_classification demo_Env unsupported_locale
                fresh_World
                (snd (initViper demo_Env unsupported_locale (Load_entered fresh_World)))
                (with_Locale "xx" Settings.zero)
                (with_Locale "en-uk" (with_Locale "xx" Settings.zero))
                (ValidationError [locale_warning]) [locale_warning])
      as (_ & Hwarn & _); try (vm_compute; reflexivity).
    destruct (Hwarn eq_refl) as (w2 & H & _). exists w2. exact H.
  - destruct (Load_warning_fatal_classification demo_Env empty_locale
                fresh_World
                (snd (initViper demo_Env empty_locale (Load_entered fresh_World)))
                (with_Locale EmptyString Settings.zero)
                (with_Locale EmptyString Settings.zero)
                (ValidationError [locale_fatal]) [locale_fatal])
      as (_ & _ & Hfatal & _); try (vm_compute; reflexivity).
    destruct (Hfatal eq_refl) as (m & w2 & Hin & _ & H & _).
    apply list_elem_of_singleton in Hin. subst m. exists w2. exact H.
Defined.

(** ** [initViper] and the default document *)

Lemma add_config_paths_run (ps : list path) (w : World) :
  add_config_paths ps w = (Ret tt, add_paths ps w).
Proof.
  revert w. induction ps as [|p ps IH]; intros w; [reflexivity|].
  simpl. unfold bind. simpl. apply IH.
Qed.

Lemma add_paths_fs (ps : list path) (w : World) : fs (add_paths ps w) = fs w.
Proof.
  revert w. induction ps as [|p ps IH]; intros w; [reflexivity|].
  simpl. fold (add_paths ps (snd (viper_AddConfigPath p w))). by rewrite IH.
Qed.

Lemma initViper_prepared_fs (E : Env) (ps : list path) (w : World) :
  fs (initViper_prepared E ps w) = fs w.
Proof. unfold initViper_prepared. simpl. by rewrite add_paths_fs. Qed.

(** [initViper] up to its read of the document. *)
Lemma initViper_run (E : Env) (o : LoadFaults) (w : World) (paths : list path) :
  (forall x, GetDefaultConfigPaths E x = inr paths) ->
  initViper E o w =
    match lf_read o with
    | inr cfg => viper_ReadInConfig (inr cfg) (initViper_prepared E paths w)
    | inl e =>
        if errors.AsConfigFileNotFoundError e then
          createDefaultConfig E o (initViper_prepared E paths w)
        else
          (Ret (Some (errors.Build
                        (errors.Context "operation" "read-config-file"
                           (errors.Category CategoryFileIO (errors.New e))))),
           initViper_prepared E paths w)
    end.
Proof.
  intros Hpaths. unfold initViper, bind. simpl. rewrite Hpaths.
  rewrite add_config_paths_run. simpl.
  destruct (lf_read o) as [e|cfg]; simpl; [|reflexivity].
  by destruct (errors.AsConfigFileNotFoundError e).
Qed.

Lemma GenerateRandomSecret_run (src : Entropy) (w : World) :
  exists w', GenerateRandomSecret src w = (Ret (fresh_secret src), w') /\
             viper w' = viper w /\ fs w' = fs w.
Proof.
  destruct src as [f|].
  - exists w. repeat split.
  - eexists. unfold GenerateRandomSecret, bind. simpl. repeat split.
Qed.

(** The directories after [os.MkdirAll]: what was there stays as it was,
    what was missing on the way is created with the mode asked for. *)
Lemma mkdir_all_lookup (perm : N) (ps : list path) (ds : gmap path N) (d : path) :
  foldl (mkdir_if_absent perm) ds ps !! d =
    match ds !! d with
    | Some m => Some m
    | None => if bool_decide (d ∈ ps) then Some perm else None
    end.
Proof.
  revert ds. induction ps as [|p ps IH]; intros ds; simpl.
  - by destruct (ds !! d).
  - rewrite IH. unfold mkdir_if_absent.
    destruct (decide (d = p)) as [->|Hne].
    + destruct (ds !! p) as [m|] eqn:Hp; rewrite ?Hp, ?lookup_insert_eq; [done|].
      rewrite bool_decide_eq_true_2; [done | by left].
    + assert (Heq : bool_decide (d ∈ p :: ps) = bool_decide (d ∈ ps))
        by (apply bool_decide_ext; rewrite elem_of_cons;
            split; [intros [Hd|Hd]; [by destruct Hne | exact Hd] | intros Hd; by right]).
      rewrite Heq.
      destruct (ds !! p) as [m|] eqn:Hp; rewrite ?lookup_insert_ne by done;
        reflexivity.
Qed.

Lemma ancestors_self (p : path) : p ≠ [] -> p ∈ ancestors p.
Proof.
  intros Hne. unfold ancestors. apply list_elem_of_fmap.
  exists (length p). split; [by rewrite firstn_all|].
  apply list_elem_of_In, in_seq. destruct p; [done|]. simpl. lia.
Qed.

Lemma Dir_Join (dir : path) (name : string) : filepath_Dir (filepath_Join dir name) = dir.
Proof. apply removelast_last. Qed.

Lemma createDefaultConfig_run (E : Env) (o : LoadFaults) (w0 : World)
  (first : path) (rest : list path) (template : string) :
  (forall x, GetDefaultConfigPaths E x = inr (first :: rest)) ->
  configFiles E !! "config.yaml" = Some template ->
  lf_mkdirAll o = None ->
  lf_writeFile o = None ->
  let configPath := filepath_Join first "config.yaml" in
  exists w',
    createDefaultConfig E o w0
    = (Ret (match lf_reread o with inl e => Some e | inr _ => None end), w') /\
    files (fs w') =
      <[configPath :=
          mkFile template
            (match files (fs w0) !! configPath with
             | Some f => f_mode f
             | None => perm_0o600
             end)]> (files (fs w0)) /\
    dirs (fs w') = foldl (mkdir_if_absent perm_0o755) (dirs (fs w0)) (ancestors first) /\
    v_override (viper w') =
      (if String.eqb (Viper_GetString (viper w0) clientsecret_key) EmptyString
       then <[clientsecret_key := fresh_secret (lf_entropy o)]> (v_override (viper w0))
       else v_override (viper w0)).
Proof.
  intros Hpaths Htemplate Hmk Hwf configPath.
  unfold createDefaultConfig, bind. simpl. rewrite Hpaths. simpl.
  unfold getDefaultConfig. rewrite Htemplate. simpl.
  fold clientsecret_key. fold configPath.
  assert (HDir : filepath_Dir configPath = first) by apply Dir_Join.
  rewrite !HDir.
  assert (Hdir : forall w1 ds, is_dir (mkFS ds (foldl (mkdir_if_absent perm_0o755)
                   (dirs (fs w1)) (ancestors first))) first = true).
  { intros w1 ds. unfold is_dir.
    pose proof (ancestors_self first) as Hself.
    destruct first as [|c first']; [reflexivity|]. cbn [dirs].
    apply bool_decide_eq_true_2. rewrite mkdir_all_lookup.
    destruct (dirs (fs w1) !! (c :: first')); [by eexists|].
    rewrite bool_decide_eq_true_2; [by eexists | by apply Hself]. }
  destruct (lf_reread o) as [e|cfg];
    (destruct (String.eqb (Viper_GetString (viper w0) clientsecret_key) EmptyString);
     [ destruct (GenerateRandomSecret_run (lf_entropy o) w0) as (w1 & Hrun & Hv & Hf);
       eexists; split;
       [ rewrite Hrun; unfold viper_Set, modify; rewrite Hmk; unfold os_MkdirAll;
         cbn beta iota; rewrite Hwf; unfold os_WriteFile; cbn beta iota;
         cbn [fs set_fs set_viper]; rewrite HDir, Hdir; reflexivity
       | cbn [fs set_fs set_viper set_output files dirs viper v_override];
         rewrite Hf, Hv; repeat split ]
     | eexists; split;
       [ unfold ret; rewrite Hmk; unfold os_MkdirAll;
         cbn beta iota; rewrite Hwf; unfold os_WriteFile; cbn beta iota;
         cbn [fs set_fs set_viper]; rewrite HDir, Hdir; reflexivity
       | cbn [fs set_fs set_viper set_output files dirs viper v_override];
         repeat split ] ]).
Qed.

(** C5. In [initViper] the only read failure after which a default
    document is written is "not found": after any other outcome of the
    read the file system is what it was, and a failure that is not "not
    found" is returned as a FileIO-category error.  When the document is
    not found (and nothing else fails) the template is written to the
    first search path, with mode 0600 if the file is new; the directories
    missing on the way are created with mode 0755; and when no client
    secret is set, a generated one is set in the configuration. *)
Theorem materialization_trigger_and_permissions (E : Env) (o : LoadFaults)
  (w w' : World) (r : Result (option error)) :
  initViper E o w = (r, w') ->
  (read_not_found o = false -> fs w' = fs w) /\
  (forall e paths,
     (forall x, GetDefaultConfigPaths E x = inr paths) ->
     lf_read o = inl e -> errors.AsConfigFileNotFoundError e = false ->
     exists err,
       r = Ret (Some err) /\ errors.CategoryOf err = Some CategoryFileIO /\
       fs w' = fs w) /\
  (forall first rest template,
     (forall x, GetDefaultConfigPaths E x = inr (first :: rest)) ->
     read_not_found o = true ->
     configFiles E !! "config.yaml" = Some template ->
     lf_mkdirAll o = None -> lf_writeFile o = None ->
     let configPath := filepath_Join first "config.yaml" in
     let prepared := initViper_prepared E (first :: rest) w in
     (files (fs w) !! configPath = None ->
      files (fs w') !! configPath = Some (mkFile template perm_0o600)) /\
     (forall f, files (fs w) !! configPath = Some f ->
      files (fs w') !! configPath = Some (mkFile template (f_mode f))) /\
     (forall p, p ≠ configPath -> files (fs w') !! p = files (fs w) !! p) /\
     (forall d,
        dirs (fs w') !! d =
          match dirs (fs w) !! d with
          | Some m => Some m
          | None => if bool_decide (d ∈ ancestors first) then Some perm_0o755 else None
          end) /\
     (Viper_GetString (viper prepared) clientsecret_key = EmptyString ->
      Viper_GetString (viper w') clientsecret_key = fresh_secret (lf_entropy o)) /\
     (Viper_GetString (viper prepared) clientsecret_key ≠ EmptyString ->
      v_override (viper w') = v_override (viper prepared))).
Proof.
  intros Hinit. split; [|split].
  - intros Hnf. revert Hinit. unfold initViper, bind. simpl.
    destruct (GetDefaultConfigPaths E _) as [e|paths]; [by intros [= _ <-]|].
    rewrite add_config_paths_run. simpl. unfold read_not_found in Hnf.
    destruct (lf_read o) as [e|cfg]; simpl.
    + rewrite Hnf. intros [= _ <-]. simpl. by rewrite add_paths_fs.
    + intros [= _ <-]. simpl. by rewrite add_paths_fs.
  - intros e paths Hpaths Hread He.
    rewrite (initViper_run E o w paths Hpaths), Hread, He in Hinit.
    injection Hinit as <- <-. eexists. split; [reflexivity|].
    split; [reflexivity | apply initViper_prepared_fs].
  - intros first rest template Hpaths Hnf Htemplate Hmk Hwf configPath prepared.
    unfold read_not_found in Hnf.
    rewrite (initViper_run E o w _ Hpaths) in Hinit.
    destruct (lf_read o) as [e|cfg]; [|discriminate]. rewrite Hnf in Hinit.
    destruct (createDefaultConfig_run E o prepared first rest template
                Hpaths Htemplate Hmk Hwf) as (w2 & Hrun & Hfiles & Hdirs & Hov).
    fold prepared in Hinit. rewrite Hrun in Hinit. injection Hinit as <- <-.
    fold configPath in Hfiles.
    unfold prepared in Hfiles, Hdirs. rewrite initViper_prepared_fs in Hfiles, Hdirs.
    repeat split.
    + intros Hnone. rewrite Hfiles, Hnone. apply lookup_insert_eq.
    + intros f Hsome. rewrite Hfiles, Hsome. apply lookup_insert_eq.
    + intros p Hp. rewrite Hfiles. by apply lookup_insert_ne.
    + intros d. rewrite Hdirs. apply mkdir_all_lookup.
    + intros Hunset. fold prepared in Hov. rewrite Hunset in Hov. simpl in Hov.
      unfold Viper_GetString. by rewrite Hov, lookup_insert_eq.
    + intros Hset. fold prepared in Hov.
      by rewrite (eqb_empty_false _ Hset) in Hov.
Qed.

Lemma materialization_witness :
  files (fs (snd (initViper demo_Env no_document fresh_World))) !! config_yaml
  = Some (mkFile "locale: en-uk" perm_0o600) /\
  fs (snd (initViper demo_Env unreadable_document fresh_World)) = fs fresh_World.
Proof.
  split.
  - destruct (materialization_trigger_and_permissions demo_Env no_document
                fresh_World (snd (initViper demo_Env no_document fresh_World))
                (fst (initViper demo_Env no_document fresh_World)))
      as (_ & _ & H); [by destruct (initViper _ _ _)|].
    destruct (H etc_birdnet [] "locale: en-uk") as (Hnew & _);
      [reflexivity..|].
    apply Hnew. reflexivity.
  - destruct (materialization_trigger_and_permissions demo_Env unreadable_document
                fresh_World (snd (initViper demo_Env unreadable_document fresh_World))
                (fst (initViper demo_Env unreadable_document fresh_World)))
      as (H & _); [by destruct (initViper _ _ _)|].
    apply H. reflexivity.
Defined.


(** ** The persister *)

Example temp_name_of_config :
  temp_of config_yaml "1649" = ["etc"; "birdnet-go"; "config-1649.yaml"].
Proof. reflexivity. Qed.

Lemma remove_temp_other (fault : option error) (tmp p : path) (w : World) :
  p ≠ tmp -> files (fs (snd (remove_temp fault tmp w))) !! p = files (fs w) !! p.
Proof.
  intros Hne. unfold remove_temp, bind, os_Remove.
  destruct (files (fs w) !! tmp) as [f|]; [destruct fault as [e|]|]; simpl.
  - by destruct (negb (os_IsNotExist e)).
  - by rewrite lookup_delete_ne.
  - reflexivity.
Qed.

Lemma remove_temp_gone (tmp : path) (w : World) :
  files (fs (snd (remove_temp None tmp w))) !! tmp = None.
Proof.
  unfold remove_temp, bind, os_Remove.
  destruct (files (fs w) !! tmp) as [f|] eqn:Htmp; simpl.
  - apply lookup_delete_eq.
  - exact Htmp.
Qed.

(** The part of the save between the creation of the temporary file and
    the return: it always returns; a failed write or close is returned as
    a FileIO-category error, a rename that succeeds ends the call without
    error; when it returns an error the destination is untouched, when it
    returns none the destination holds the data. *)
Lemma SaveYAMLConfig_install_cases (E : Env) (o : SaveFaults)
  (configPath tmp : path) (yamlData : string) (mode : N) (w w1 : World)
  (r : Result (option error)) :
  moveFile_contract E ->
  tmp ≠ configPath ->
  files (fs w) !! tmp = Some (mkFile EmptyString mode) ->
  SaveYAMLConfig_install E o configPath tmp yamlData w = (r, w1) ->
  (exists res, r = Ret res) /\
  (forall err, r = Ret (Some err) ->
     files (fs w1) !! configPath = files (fs w) !! configPath) /\
  (r = Ret None -> f_data <$> files (fs w1) !! configPath = Some yamlData) /\
  (is_Some (sf_write o) \/ is_Some (sf_close o) ->
   exists err, r = Ret (Some err) /\ errors.CategoryOf err = Some CategoryFileIO) /\
  (sf_write o = None -> sf_close o = None -> sf_rename o = None -> r = Ret None).
Proof.
  intros [Hfail Hok] Hne Htmp.
  unfold SaveYAMLConfig_install, bind, File_Write, File_Close, os_Rename,
    run_moveFile, ret.
  destruct (sf_write o) as [[n e]|]; cbn [fmap option_fmap option_map snd].
  { intros [= <- <-]. split; [by eexists|]. split; [|split; [done|split; [|done]]].
    - intros _ _. simpl. by rewrite lookup_alter_ne.
    - intros _. by eexists. }
  destruct (sf_close o) as [e|].
  { intros [= <- <-]. split; [by eexists|]. split; [|split; [done|split; [|done]]].
    - intros _ _. simpl. by rewrite lookup_alter_ne.
    - intros _. by eexists. }
  set (w2 := set_fs _ w).
  assert (Htmp2 : files (fs w2) !! tmp = Some (mkFile yamlData mode)).
  { unfold w2. simpl. by rewrite lookup_alter_eq, Htmp. }
  assert (Hdst2 : files (fs w2) !! configPath = files (fs w) !! configPath).
  { unfold w2. simpl. by rewrite lookup_alter_ne. }
  assert (Hnone : ~ (is_Some (@None (nat * error)) \/ is_Some (@None error))).
  { intros [[x Hx]|[x Hx]]; discriminate. }
  destruct (sf_rename o) as [e|].
  - destruct (moveFile E tmp configPath (fs w2)) as [f3 [e3|]] eqn:Hmove.
    + intros [= <- <-]. split; [by eexists|].
      split; [|split; [done|split; [done|done]]].
      intros _ _. simpl. rewrite <- Hdst2. by eapply Hfail.
    + intros [= <- <-]. split; [by eexists|].
      split; [done|split; [|split; [done|done]]].
      intros _. simpl. by rewrite (Hok _ _ _ _ _ Hne Htmp2 Hmove).
  - rewrite Htmp2. intros [= <- <-]. split; [by eexists|].
    split; [done|split; [|split; [done|done]]].
    intros _. simpl. by rewrite lookup_insert_eq.
Qed.

Lemma copy_then_delete_contract : moveFile_contract demo_Env.
Proof.
  split; simpl; unfold copy_then_delete.
  - intros src dst f f' e Hne. destruct (files f !! src); [done|].
    by intros [= <- _].
  - intros src dst f f' file Hne ->. intros [= <-]. simpl.
    by rewrite lookup_delete_ne, lookup_insert_eq.
Qed.





(** ** Computations that return *)

Lemma returns_ret {A} (a : A) : returns (ret a).
Proof. intros w. by exists a, w. Qed.

Lemma returns_step {A} (c : M A) :
  (forall w, exists a, fst (c w) = Ret a) -> returns c.
Proof.
  intros H w. destruct (H w) as [a Ha]. exists a, (snd (c w)).
  rewrite <- Ha. apply surjective_pairing.
Qed.

Lemma returns_bind {A B} (c : M A) (k : A -> M B) :
  returns c -> (forall a, returns (k a)) -> returns (bind c k).
Proof.
  intros Hc Hk w. unfold bind. destruct (Hc w) as (a & w1 & ->). apply Hk.
Qed.

Lemma returns_defer {A} (d : World -> World) (c : M A) :
  returns c -> returns (defer d c).
Proof.
  intros Hc w. unfold defer. destruct (Hc w) as (a & w1 & ->). by eexists _, _.
Qed.

Ltac returns_tac :=
  repeat first
    [ apply returns_ret
    | apply returns_bind; [|intros ?]
    | apply returns_defer
    | match goal with
      | |- returns (match ?x with _ => _ end) => destruct x
      end ].

Ltac returns_prim :=
  apply returns_step; intros ?;
  repeat (simpl; unfold ret, get, modify; case_match); by eexists.

Lemma SaveYAMLConfig_returns (E : Env) (o : SaveFaults) (configPath : path)
  (settings : Settings.t) : returns (SaveYAMLConfig E o configPath settings).
Proof.
  unfold SaveYAMLConfig, SaveYAMLConfig_install. returns_tac.
  all: try (unfold os_CreateTemp; destruct (sf_createTemp o); [apply returns_ret|]).
  all: try (unfold run_moveFile; apply returns_step; intros w;
            destruct (moveFile E _ _ _); by eexists).
  all: try (unfold os_Rename); returns_prim.
Qed.

(** ** Bookkeeping *)

Lemma preserves_weaken {X Y A} (f : World -> X) (g : World -> Y) (c : M A) :
  (forall w w', f w' = f w -> g w' = g w) -> preserves f c -> preserves g c.
Proof. intros Hfg Hc w r w' Hrun. apply Hfg. by eapply Hc. Qed.

Lemma store_bookkeeping {A} (c : M A) :
  preserves store_of c -> preserves bookkeeping_of c.
Proof.
  apply preserves_weaken. intros w w' [= _ H1 H2 H3 H4].
  unfold bookkeeping_of. by rewrite H1, H2, H3, H4.
Qed.

#[local] Hint Resolve store_bookkeeping : frame.

Lemma classify_messages_bookkeeping err msgs s :
  preserves bookkeeping_of (classify_messages err msgs s).
Proof.
  intros w r w'. rewrite classify_messages_run. by intros [= _ <-].
Qed.

Lemma Load_locked_bookkeeping (E : Env) (o : LoadFaults) :
  preserves bookkeeping_of (Load_locked E o).
Proof.
  unfold Load_locked. preserves_tac;
    try apply classify_messages_bookkeeping;
    by apply preserves_modify.
Qed.

(** [Load] counts itself once and leaves the once flag alone; when it
    returns or panics the write lock is free again. *)
Lemma Load_bookkeeping (E : Env) (o : LoadFaults) (w w' : World)
  (r : Result (option Settings.t * option error)) :
  Load E o w = (r, w') ->
  loadCalls w' = S (loadCalls w) /\ once w' = once w /\
  speciesListMutex w' = speciesListMutex w /\
  ((exists a, r = Ret a) -> settingsMutex w' = mkRWMutex 0 false).
Proof.
  intros HLoad.
  destruct (decide (settingsMutex w = mkRWMutex 0 false)) as [Hfree|Hbusy].
  - rewrite (Load_run E o w Hfree) in HLoad. unfold defer in HLoad.
    destruct (Load_locked E o (Load_entered w)) as [r1 w1] eqn:Hlocked.
    apply Load_locked_bookkeeping in Hlocked.
    injection Hlocked as Ho Hm Hs Hc. simpl in Ho, Hm, Hs, Hc.
    destruct r1 as [a|reason|code|]; injection HLoad as <- <-; simpl;
      rewrite ?Ho, ?Hm, ?Hs, ?Hc; repeat split; try done;
      intros [a' [=]].
  - rewrite (Load_blocked E o w Hbusy) in HLoad. injection HLoad as <- <-.
    repeat split. intros [a [=]].
Qed.

(** ** [GetSettings] and [SaveSettings] *)

Lemma settings_lock_roundtrip (w : World) :
  writer (settingsMutex w) = false ->
  RUnlock settingsMutex set_settingsMutex
    (set_settingsMutex (mkRWMutex (S (readers (settingsMutex w))) false) w) = w.
Proof.
  intros Hw. destruct w as [? ? [n b] ? ? ? ? ?]. simpl in Hw. by subst b.
Qed.

Lemma species_lock_roundtrip (w : World) :
  writer (speciesListMutex w) = false ->
  RUnlock speciesListMutex set_speciesListMutex
    (set_speciesListMutex (mkRWMutex (S (readers (speciesListMutex w))) false) w) = w.
Proof.
  intros Hw. destruct w as [? ? ? [n b] ? ? ? ?]. simpl in Hw. by subst b.
Qed.

Lemma GetSettings_run (w : World) :
  writer (settingsMutex w) = false -> GetSettings w = (Ret (settingsInstance w), w).
Proof.
  intros Hw. unfold GetSettings, bind, RLock, defer, get. rewrite Hw.
  by rewrite settings_lock_roundtrip.
Qed.

Lemma GetSettings_blocked (w : World) :
  writer (settingsMutex w) = true -> GetSettings w = (Block, w).
Proof. intros Hw. unfold GetSettings, bind, RLock. by rewrite Hw. Qed.

(** [make] followed by [copy] gives a slice equal to the source. *)
Lemma copy_strings_make (src : list string) :
  copy_strings (make_strings (length src)) src = src.
Proof.
  unfold copy_strings, make_strings. rewrite length_replicate.
  rewrite firstn_all, drop_replicate, Nat.sub_diag. simpl. apply app_nil_r.
Qed.

Lemma SaveSettings_copy_eq (live : Settings.t) : SaveSettings_copy live = live.
Proof.
  unfold SaveSettings_copy. rewrite copy_strings_make.
  by destruct live as [? ? ? ? ? [? ? ? [? ? ?] ? ? ? ?] ? ?].
Qed.

Lemma SaveSettings_run (E : Env) (o : SaveFaults) (w : World) :
  writer (settingsMutex w) = false ->
  SaveSettings E o w =
    defer (RUnlock settingsMutex set_settingsMutex) (SaveSettings_locked E o)
      (SaveSettings_entered w).
Proof. intros Hw. unfold SaveSettings, bind, RLock. by rewrite Hw. Qed.

Lemma SaveSettings_blocked (E : Env) (o : SaveFaults) (w : World) :
  writer (settingsMutex w) = true -> SaveSettings E o w = (Block, w).
Proof. intros Hw. unfold SaveSettings, bind, RLock. by rewrite Hw. Qed.

(** The locked part of [SaveSettings] when an instance is installed and
    the species lock can be taken. *)
Lemma SaveSettings_locked_run (E : Env) (o : SaveFaults) (w : World)
  (live : Settings.t) :
  settingsInstance w = Some live ->
  writer (speciesListMutex w) = false ->
  SaveSettings_locked E o w =
    match FindConfigFile E w with
    | inl err =>
        (Ret (Some (errors.Build
                      (errors.Context "operation" "find-config-file"
                         (errors.Category CategoryFileIO (errors.New err))))), w)
    | inr configPath =>
        match SaveYAMLConfig E o configPath (SaveSettings_copy live) w with
        | (Ret (Some err), w2) => (Ret (Some (save_failure configPath err)), w2)
        | (Ret None, w2) =>
            (Ret None,
             set_output
               (output w2 ++ [("Settings saved successfully to %s", ArgPath configPath)])
               w2)
        | (Panic reason, w2) => (Panic reason, w2)
        | (Exit code, w2) => (Exit code, w2)
        | (Block, w2) => (Block, w2)
        end
    end.
Proof.
  intros Hinst Hsp. unfold SaveSettings_locked, bind, get. rewrite Hinst.
  unfold RLock. cbn [speciesListMutex]. rewrite Hsp. unfold modify.
  rewrite species_lock_roundtrip by assumption.
  destruct (FindConfigFile E w) as [err|configPath]; [reflexivity|].
  fold (SaveSettings_copy live).
  destruct (SaveYAMLConfig E o configPath (SaveSettings_copy live) w)
    as [[[err|]|reason|code|] w2]; reflexivity.
Qed.

Lemma SaveSettings_locked_species_blocked (E : Env) (o : SaveFaults) (w : World)
  (live : Settings.t) :
  settingsInstance w = Some live ->
  writer (speciesListMutex w) = true ->
  SaveSettings_locked E o w = (Block, w).
Proof.
  intros Hinst Hsp. unfold SaveSettings_locked, bind, get. rewrite Hinst.
  unfold RLock. by rewrite Hsp.
Qed.

Lemma SaveSettings_locked_nil (E : Env) (o : SaveFaults) (w : World) :
  settingsInstance w = None ->
  SaveSettings_locked E o w
  = (Panic "invalid memory address or nil pointer dereference", w).
Proof. intros Hinst. unfold SaveSettings_locked, bind, get. by rewrite Hinst. Qed.

Lemma SaveSettings_store (E : Env) (o : SaveFaults) :
  preserves (fun w => (settingsInstance w, once w, loadCalls w)) (SaveSettings E o).
Proof.
  assert (Hweak : forall A (c : M A), preserves store_of c ->
            preserves (fun w => (settingsInstance w, once w, loadCalls w)) c).
  { intros A c. apply preserves_weaken. by intros w w' [= -> -> _ _ ->]. }
  unfold SaveSettings, SaveSettings_locked. preserves_tac;
    try (apply Hweak; auto with frame; fail);
    try (by apply preserves_step; intros w; unfold RLock; destruct (writer _));
    by apply preserves_modify.
Qed.


(** ** [Setting] *)

Lemma GetSettings_store :
  preserves (fun w => (settingsInstance w, once w, loadCalls w)) GetSettings.
Proof.
  intros w r w'. destruct (writer (settingsMutex w)) eqn:Hw.
  - rewrite (GetSettings_blocked w Hw). by intros [= _ <-].
  - rewrite (GetSettings_run w Hw). by intros [= _ <-].
Qed.

(** [Setting], case by case. *)
Lemma Setting_run (E : Env) (o : LoadFaults) (w : World) :
  Setting E o w =
    if once w then GetSettings w
    else
      match settingsInstance w with
      | Some _ => GetSettings (set_once true w)
      | None =>
          match Load E o w with
          | (Ret (_, Some err), wl) =>
              (Exit 1,
               set_output
                 (output wl ++ [("Error loading settings: %v",
                                 ArgError (load_settings_failure err))]) wl)
          | (Ret (_, None), wl) => GetSettings (set_once true wl)
          | (Panic reason, wl) => (Panic reason, set_once true wl)
          | (Exit code, wl) => (Exit code, wl)
          | (Block, wl) => (Block, wl)
          end
      end.
Proof.
  unfold Setting, once_Do, bind, get. destruct (once w) eqn:Honce; [reflexivity|].
  unfold defer, Setting_init, bind, get.
  destruct (settingsInstance w) as [s|]; [reflexivity|].
  destruct (Load E o w) as [[[x [err|]]|reason|code|] wl]; reflexivity.
Qed.

(** C8, as the code has it.  A call of [Setting] after the first performs
    no load and is [GetSettings].  The first call performs no load either
    when an instance is installed already; when none is, it performs
    exactly one [Load], exits the process if that load returns an error,
    and otherwise is [GetSettings] on the state the load left.  Once a
    call has returned the once flag is set, so every later call is of the
    first kind. *)
Theorem Setting_lazy_initialization (E : Env) (o : LoadFaults) (w w' : World)
  (r : Result (option Settings.t)) :
  Setting E o w = (r, w') ->
  (once w = true ->
   loadCalls w' = loadCalls w /\ (r, w') = GetSettings w) /\
  (once w = false -> settingsInstance w ≠ None ->
   loadCalls w' = loadCalls w /\ (r, w') = GetSettings (set_once true w)) /\
  (once w = false -> settingsInstance w = None ->
   loadCalls w' = S (loadCalls w) /\
   forall rl wl, Load E o w = (rl, wl) ->
     match rl with
     | Ret (_, Some err) => r = Exit 1
     | Ret (_, None) => (r, w') = GetSettings (set_once true wl)
     | Panic reason => r = Panic reason
     | Exit code => r = Exit code
     | Block => r = Block
     end) /\
  (forall a, r = Ret a -> once w' = true).
Proof.
  rewrite Setting_run. intros Hrun. split; [|split; [|split]].
  - intros Honce. rewrite Honce in Hrun. split; [|done].
    by pose proof (GetSettings_store _ _ _ Hrun) as [= _ _ ->].
  - intros Honce Hinst. rewrite Honce in Hrun.
    destruct (settingsInstance w) as [s|]; [|done]. split; [|done].
    by pose proof (GetSettings_store _ _ _ Hrun) as [= _ _ ->].
  - intros Honce Hinst. rewrite Honce, Hinst in Hrun.
    destruct (Load E o w) as [rl wl] eqn:HLoad.
    destruct (Load_bookkeeping E o _ _ _ HLoad) as (Hcalls & _).
    split.
    + destruct rl as [[x [err|]]|reason|code|];
        try (injection Hrun as <- <-; simpl; exact Hcalls).
      by pose proof (GetSettings_store _ _ _ Hrun) as [= _ _ ->].
    + intros rl' wl' [= <- <-].
      destruct rl as [[x [err|]]|reason|code|]; try (by injection Hrun as <- _).
      done.
  - intros a ->. destruct (once w) eqn:Honce.
    + by pose proof (GetSettings_store _ _ _ Hrun) as [= _ -> _].
    + destruct (settingsInstance w) as [s|].
      * by pose proof (GetSettings_store _ _ _ Hrun) as [= _ -> _].
      * destruct (Load E o w) as [[[x [err|]]|reason|code|] wl]; try done.
        by pose proof (GetSettings_store _ _ _ Hrun) as [= _ -> _].
Qed.

(** The claim as stated fails: a process that called [Load] itself, with
    success, and then calls [Setting] for the first time performs no load
    in that call. *)
Lemma Setting_first_call_without_Load :
  once loaded_World = false /\
  loadCalls loaded_World = 1%nat /\
  fst (Setting demo_Env no_document loaded_World) = Ret (Some installed_settings) /\
  loadCalls (snd (Setting demo_Env no_document loaded_World)) = 1%nat.
Proof. repeat split; vm_compute; reflexivity. Qed.

Lemma Setting_lazy_initialization_witness :
  loadCalls (snd (Setting demo_Env no_document fresh_World)) = 1%nat /\
  loadCalls (snd (Setting demo_Env no_document
                    (snd (Setting demo_Env no_document fresh_World)))) = 1%nat /\
  fst (Setting demo_Env unreadable_document fresh_World) = Exit 1.
Proof.
  set (first := Setting demo_Env no_document fresh_World).
  set (second := Setting demo_Env no_document (snd first)).
  set (failed := Setting demo_Env unreadable_document fresh_World).
  destruct (Setting_lazy_initialization demo_Env no_document fresh_World
              (snd first) (fst first)) as (_ & _ & Hfirst & _);
    [apply surjective_pairing|].
  destruct (Setting_lazy_initialization demo_Env no_document (snd first)
              (snd second) (fst second)) as (Hlater & _ & _ & _);
    [apply surjective_pairing|].
  destruct (Setting_lazy_initialization demo_Env unreadable_document fresh_World
              (snd failed) (fst failed)) as (_ & _ & Hfailed & _);
    [apply surjective_pairing|].
  split; [|split].
  - by destruct (Hfirst eq_refl eq_refl) as [-> _].
  - destruct (Hlater ltac:(vm_compute; reflexivity)) as [-> _].
    by destruct (Hfirst eq_refl eq_refl) as [-> _].
  - destruct (Hfailed eq_refl eq_refl) as [_ Hexit].
    apply (Hexit (fst (Load demo_Env unreadable_document fresh_World))
                 (snd (Load demo_Env unreadable_document fresh_World))).
    apply surjective_pairing.
Defined.

(** ** [SaveSettings] needs a load *)

Lemma never_loaded_nil (E : Env) (w : World) :
  never_loaded E w -> settingsInstance w = None.
Proof.
  induction 1 as [v f | o w w' r _ IH HLoad Hfail | w w' r _ IH Hget
                 | o w w' r _ IH Hsave | o w w' r _ IH Hset Hnil].
  - reflexivity.
  - apply Load_instance in HLoad. rewrite IH in HLoad.
    destruct r as [[[s|] [err|]]|reason|code|]; simpl in HLoad; try done.
    by destruct (Hfail s).
  - by pose proof (GetSettings_store _ _ _ Hget) as [= -> _ _].
  - by pose proof (SaveSettings_store E o _ _ _ Hsave) as [= -> _ _].
  - rewrite Setting_run, IH in Hset. destruct (once w).
    + by pose proof (GetSettings_store _ _ _ Hset) as [= -> _ _].
    + destruct (Load E o w) as [rl wl] eqn:HLoad.
      pose proof (Load_instance _ _ _ _ _ HLoad) as Hinst. rewrite IH in Hinst.
      destruct (Load_bookkeeping _ _ _ _ _ HLoad) as (_ & _ & _ & Hfree).
      destruct rl as [[[s|] [err|]]|reason|code|]; simpl in Hinst; try done;
        try (by injection Hset as _ <-).
      rewrite GetSettings_run in Hset by (simpl; by rewrite Hfree; [|eexists]).
      injection Hset as <- _. simpl in Hnil. rewrite Hinst in Hnil.
      by destruct (Hnil s).
Qed.

(** C9. [SaveSettings] presupposes a successful load.  In a state of a
    process in which no load has completed successfully the installed
    instance is nil; with a nil instance [GetSettings] returns nil, no
    default being put in its place, and [SaveSettings] panics on the
    dereference of the nil pointer.  With an instance installed
    [SaveSettings] does not panic. *)
Theorem SaveSettings_needs_installed_instance (E : Env) (o : SaveFaults)
  (w : World) :
  (never_loaded E w -> settingsInstance w = None) /\
  (settingsInstance w = None -> writer (settingsMutex w) = false ->
   GetSettings w = (Ret None, w) /\
   SaveSettings E o w
   = (Panic "invalid memory address or nil pointer dereference", w)) /\
  (forall live, settingsInstance w = Some live ->
   forall r w', SaveSettings E o w = (r, w') -> forall reason, r ≠ Panic reason).
Proof.
  split; [apply never_loaded_nil|]. split.
  - intros Hnil Hw. split.
    + by rewrite (GetSettings_run w Hw), Hnil.
    + rewrite (SaveSettings_run E o w Hw). unfold defer.
      rewrite SaveSettings_locked_nil by done.
      unfold SaveSettings_entered. by rewrite settings_lock_roundtrip.
  - intros live Hinst r w' Hrun reason ->.
    destruct (writer (settingsMutex w)) eqn:Hw.
    + by rewrite (SaveSettings_blocked E o w Hw) in Hrun.
    + rewrite (SaveSettings_run E o w Hw) in Hrun. unfold defer in Hrun.
      destruct (writer (speciesListMutex w)) eqn:Hsp.
      * by rewrite (SaveSettings_locked_species_blocked E o _ live) in Hrun.
      * rewrite (SaveSettings_locked_run E o _ live) in Hrun by done.
        destruct (FindConfigFile E (SaveSettings_entered w)) as [err|configPath];
          [done|].
        destruct (SaveYAMLConfig_returns E o configPath (SaveSettings_copy live)
                    (SaveSettings_entered w)) as (res & w2 & Hsave).
        rewrite Hsave in Hrun. by destruct res.
Qed.

Lemma SaveSettings_needs_installed_instance_witness :
  GetSettings fresh_World = (Ret None, fresh_World) /\
  SaveSettings demo_Env save_ok fresh_World
  = (Panic "invalid memory address or nil pointer dereference", fresh_World) /\
  (forall reason,
     fst (SaveSettings demo_Env save_ok loaded_World) ≠ Panic reason).
Proof.
  destruct (SaveSettings_needs_installed_instance demo_Env save_ok fresh_World)
    as (Hnil & Hpanic & _).
  destruct (Hpanic (Hnil (never_loaded_start demo_Env _ _)) eq_refl) as [Hget Hsave].
  split; [exact Hget|]. split; [exact Hsave|].
  destruct (SaveSettings_needs_installed_instance demo_Env save_ok loaded_World)
    as (_ & _ & Hsafe).
  pose proof (Hsafe installed_settings ltac:(vm_compute; reflexivity)
                (fst (SaveSettings demo_Env save_ok loaded_World))
                (snd (SaveSettings demo_Env save_ok loaded_World))
                (surjective_pairing _)) as Hnopanic.
  exact Hnopanic.
Defined.


(** * Further properties *)

(** ** Backup targets *)

(** Case analysis on the tests of the fields, innermost first. *)
Ltac validate_split :=
  repeat (simpl in *; try reflexivity;
          match goal with
          | |- context [String.eqb ?a ?b] =>
              is_var a; destruct (String.eqb a b) eqn:?
          | |- context [Z.eqb ?a ?b] => is_var a; destruct (Z.eqb a b) eqn:?
          end);
  simpl in *; try reflexivity; try congruence.

(** X1. Validation is idempotent: validating a target again, whether the
    first call failed or succeeded, returns the same structure and the
    same error. *)
Theorem Validate_idempotent
  (loc : LocalBackupSettings.t) (ftp : FTPBackupSettings.t)
  (sftp : SFTPBackupSettings.t) (s3 : S3BackupSettings.t)
  (rsync : RsyncBackupSettings.t) (gd : GoogleDriveBackupSettings.t) :
  Validate (fst (Validate loc)) = Validate loc /\
  Validate (fst (Validate ftp)) = Validate ftp /\
  Validate (fst (Validate sftp)) = Validate sftp /\
  Validate (fst (Validate s3)) = Validate s3 /\
  Validate (fst (Validate rsync)) = Validate rsync /\
  Validate (fst (Validate gd)) = Validate gd.
Proof.
  unfold Validate, LocalBackupSettings_target, FTPBackupSettings_target,
    SFTPBackupSettings_target, S3BackupSettings_target,
    RsyncBackupSettings_target, GoogleDriveBackupSettings_target.
  destruct loc, ftp as [fh fp ? ? ? ?], sftp as [sh sp su ? ? ?], s3,
    rsync as [rh rp ? rpath ? ?], gd.
  unfold LocalBackupSettings.Validate, FTPBackupSettings.Validate,
    SFTPBackupSettings.Validate, S3BackupSettings.Validate,
    RsyncBackupSettings.Validate, GoogleDriveBackupSettings.Validate.
  simpl. repeat split; validate_split.
Qed.

(** Case analysis that keeps the equations of the fields. *)
Ltac validate_spec :=
  repeat (simpl in *;
          match goal with
          | |- context [String.eqb ?a ?b] =>
              is_var a; destruct (String.eqb_spec a b)
          | |- context [Z.eqb ?a ?b] => is_var a; destruct (Z.eqb_spec a b)
          end);
  simpl in *; subst; simpl in *.

Ltac validate_unfold :=
  unfold Validate, LocalBackupSettings_target, FTPBackupSettings_target,
    SFTPBackupSettings_target, S3BackupSettings_target,
    RsyncBackupSettings_target, GoogleDriveBackupSettings_target;
  unfold LocalBackupSettings.Validate, FTPBackupSettings.Validate,
    SFTPBackupSettings.Validate, S3BackupSettings.Validate,
    RsyncBackupSettings.Validate, GoogleDriveBackupSettings.Validate,
    FTPBackupSettings.with_Port, SFTPBackupSettings.with_Port,
    RsyncBackupSettings.with_Port.

(** X2. When validation returns an error the settings are as they went in
    for Local, FTP, S3, Rsync and Google Drive.  SFTP is the exception: it
    sets the port before it looks at the username, so with a host, port 0
    and no username it returns the username error and the settings with
    port 22. *)
Theorem Validate_receiver_on_error
  (loc : LocalBackupSettings.t) (ftp : FTPBackupSettings.t)
  (sftp : SFTPBackupSettings.t) (s3 : S3BackupSettings.t)
  (rsync : RsyncBackupSettings.t) (gd : GoogleDriveBackupSettings.t) :
  (is_Some (snd (Validate loc)) -> fst (Validate loc) = loc) /\
  (is_Some (snd (Validate ftp)) -> fst (Validate ftp) = ftp) /\
  (is_Some (snd (Validate s3)) -> fst (Validate s3) = s3) /\
  (is_Some (snd (Validate rsync)) -> fst (Validate rsync) = rsync) /\
  (is_Some (snd (Validate gd)) -> fst (Validate gd) = gd) /\
  (is_Some (snd (Validate sftp)) ->
   fst (Validate sftp) = sftp \/
   SFTPBackupSettings.Host sftp ≠ EmptyString /\
   SFTPBackupSettings.Username sftp = EmptyString /\
   SFTPBackupSettings.Port sftp = 0%Z /\
   Validate sftp
   = (SFTPBackupSettings.with_Port 22 sftp,
      Some (errorString "SFTP username cannot be empty"))) /\
  (SFTPBackupSettings.Host sftp ≠ EmptyString ->
   SFTPBackupSettings.Username sftp = EmptyString ->
   SFTPBackupSettings.Port sftp = 0%Z ->
   is_Some (snd (Validate sftp)) /\ fst (Validate sftp) ≠ sftp).
Proof.
  validate_unfold.
  destruct loc as [lp], ftp as [fh fp ? ? ? ?], sftp as [sh sp su ? ? ?],
    s3 as [? sr sb ? ? ? ?], rsync as [rh rp ? rpath ? ?], gd as [gc ?].
  repeat split; validate_spec;
    try (intros [x Hx]; discriminate); auto; done.
Qed.

(** X3. Validation succeeds exactly when the required fields are not
    empty, and after a success the port of an FTP or SFTP target is not
    zero (nor is the port of an Rsync target that has a host); an Rsync
    target without host keeps its port, zero included. *)
Theorem Validate_succeeds_iff
  (loc : LocalBackupSettings.t) (ftp : FTPBackupSettings.t)
  (sftp : SFTPBackupSettings.t) (s3 : S3BackupSettings.t)
  (rsync : RsyncBackupSettings.t) (gd : GoogleDriveBackupSettings.t) :
  (snd (Validate loc) = None <-> LocalBackupSettings.Path loc ≠ EmptyString) /\
  (snd (Validate ftp) = None <-> FTPBackupSettings.Host ftp ≠ EmptyString) /\
  (snd (Validate sftp) = None <->
   SFTPBackupSettings.Host sftp ≠ EmptyString /\
   SFTPBackupSettings.Username sftp ≠ EmptyString) /\
  (snd (Validate s3) = None <->
   S3BackupSettings.Bucket s3 ≠ EmptyString /\
   S3BackupSettings.Region s3 ≠ EmptyString) /\
  (snd (Validate rsync) = None <-> RsyncBackupSettings.Path rsync ≠ EmptyString) /\
  (snd (Validate gd) = None <->
   GoogleDriveBackupSettings.CredentialsPath gd ≠ EmptyString) /\
  (snd (Validate ftp) = None ->
   FTPBackupSettings.Port (fst (Validate ftp)) ≠ 0%Z) /\
  (snd (Validate sftp) = None ->
   SFTPBackupSettings.Port (fst (Validate sftp)) ≠ 0%Z) /\
  (snd (Validate rsync) = None ->
   RsyncBackupSettings.Host rsync ≠ EmptyString ->
   RsyncBackupSettings.Port (fst (Validate rsync)) ≠ 0%Z) /\
  (RsyncBackupSettings.Host rsync = EmptyString ->
   RsyncBackupSettings.Port (fst (Validate rsync)) = RsyncBackupSettings.Port rsync).
Proof.
  validate_unfold.
  destruct loc as [lp], ftp as [fh fp ? ? ? ?], sftp as [sh sp su ? ? ?],
    s3 as [? sr sb ? ? ? ?], rsync as [rh rp ? rpath ? ?], gd as [gc ?].
  repeat match goal with |- _ /\ _ => split end;
    validate_spec; try (split; intros); try intros; simpl in *;
    try done; try tauto; try (intuition congruence).
Qed.

(** ** Weather provider *)

(** X4. The provider [GetWeatherSettings] returns is never the empty
    string, and writing its result into the new-format weather block is
    stable: the settings so migrated resolve to the same provider and the
    same OpenWeather settings, whatever the legacy block holds. *)
Theorem GetWeatherSettings_migration_stable (s : Settings.t) :
  fst (GetWeatherSettings s) ≠ EmptyString /\
  GetWeatherSettings
    (with_Weather (fst (GetWeatherSettings s)) (snd (GetWeatherSettings s)) s)
  = GetWeatherSettings s.
Proof.
  unfold GetWeatherSettings, with_Weather. simpl.
  destruct (String.eqb_spec
              (WeatherSettings.Provider (RealtimeSettings.Weather (Settings.Realtime s)))
              EmptyString) as [Heq|Hne]; simpl.
  - destruct (OpenWeatherSettings.Enabled
                (RealtimeSettings.OpenWeather (Settings.Realtime s))); simpl;
      split; done.
  - split; [done|]. by rewrite (proj2 (String.eqb_neq _ _) Hne).
Qed.

(** ** The secret generator, continued *)

(** X5. The secret determines the entropy it was made from: two runs
    return the same secret exactly when the source delivered the same 32
    bytes. *)
Theorem GenerateRandomSecret_injective (f g : nat -> byte) (w : World) :
  fst (GenerateRandomSecret (Some f) w) = fst (GenerateRandomSecret (Some g) w)
  <-> map f (seq 0 32) = map g (seq 0 32).
Proof.
  change (fst (GenerateRandomSecret (Some f) w))
    with (@Ret string (EncodeToString (map f (seq 0 32)))).
  change (fst (GenerateRandomSecret (Some g) w))
    with (@Ret string (EncodeToString (map g (seq 0 32)))).
  split; [|by intros ->].
  pose proof (DecodeString_EncodeToString (map f (seq 0 32))) as Hf.
  pose proof (DecodeString_EncodeToString (map g (seq 0 32))) as Hg.
  revert Hf Hg.
  generalize (EncodeToString (map f (seq 0 32))) (EncodeToString (map g (seq 0 32))).
  intros sf sg Hf Hg [= ->]. congruence.
Qed.

(** ** Classification of validation messages, continued *)

Lemma string_append_assoc (a b c : string) : (a +:+ b) +:+ c = a +:+ b +:+ c.
Proof.
  induction a as [|x a IH]; [done|].
  change (String x ((a +:+ b) +:+ c) = String x (a +:+ b +:+ c)). by rewrite IH.
Qed.

Lemma occurs_in_embed (sub m pre post : string) :
  occurs_in sub m -> occurs_in sub (pre +:+ m +:+ post).
Proof.
  intros (a & b & ->). exists (pre +:+ a), (b +:+ post).
  by rewrite !string_append_assoc.
Qed.

(** X6. The classification of [Load] looks for a substring, so a message
    that embeds a warning message, with any text before and after, is a
    warning too. *)
Theorem is_warning_embedded (pre m post : string) :
  is_warning m = true -> is_warning (pre +:+ m +:+ post) = true.
Proof.
  rewrite !is_warning_spec. intros [H|H]; [left|right]; by apply occurs_in_embed.
Qed.

Lemma is_warning_embedded_witness :
  is_warning ("port 70000: " +:+ locale_warning +:+ "; giving up") = true.
Proof. apply (is_warning_embedded _ locale_warning _). reflexivity. Defined.

(** ** The loop over the validation messages, continued *)

Lemma leading_warnings_app (pre rest : list string) (m : string) :
  forallb is_warning pre = true -> is_warning m = false ->
  leading_warnings (pre ++ m :: rest) = pre /\
  first_fatal (pre ++ m :: rest) = Some m.
Proof.
  intros Hpre Hm. unfold first_fatal.
  induction pre as [|p pre IH]; cbn [forallb app leading_warnings find] in *.
  - by rewrite Hm.
  - apply andb_true_iff in Hpre as [Hp Hpre]. rewrite Hp.
    destruct (IH Hpre) as [-> H2]. done.
Qed.

(** X7. The loop of [Load] over the validation messages stops at the first
    message that is not a warning: the warnings before it have been logged
    and recorded, the error is built from that message, and the messages
    after it, warnings or not, play no part. *)
Theorem classify_messages_stops_at_first_fatal (err : error)
  (pre rest : list string) (m : string) (s : Settings.t) (w : World) :
  forallb is_warning pre = true -> is_warning m = false ->
  classify_messages err (pre ++ m :: rest) s w
  = (Ret (record_warnings pre s, Some (fatal_validation_error err m)),
     set_output (output w ++ warning_lines pre) w).
Proof.
  intros Hpre Hm. rewrite classify_messages_run.
  by destruct (leading_warnings_app pre rest m Hpre Hm) as [-> ->].
Qed.

Lemma classify_messages_stops_at_first_fatal_witness :
  classify_messages (ValidationError [locale_warning; locale_fatal; locale_warning])
    ([locale_warning] ++ locale_fatal :: [locale_warning]) Settings.zero fresh_World
  = (Ret (record_warnings [locale_warning] Settings.zero,
          Some (fatal_validation_error
                  (ValidationError [locale_warning; locale_fatal; locale_warning])
                  locale_fatal)),
     set_output (output fresh_World ++ warning_lines [locale_warning]) fresh_World).
Proof.
  apply (classify_messages_stops_at_first_fatal _ [locale_warning]); reflexivity.
Defined.

(** ** The persister, continued *)

(** X8. [SaveYAMLConfig] gives up before it has written anything when the
    settings cannot be marshalled, or the temporary file cannot be created
    (the call fails, or the directory of the destination is missing): the
    state is exactly as before, and the error carries the category
    Configuration in the first case and FileIO in the second. *)
Theorem SaveYAMLConfig_fails_before_writing (E : Env) (o : SaveFaults)
  (configPath : path) (settings : Settings.t) (w : World) :
  (forall e, yaml_Marshal E settings = inl e ->
     exists err,
       SaveYAMLConfig E o configPath settings w = (Ret (Some err), w) /\
       errors.CategoryOf err = Some CategoryConfiguration /\
       errors.ContextOf "operation" err = Some "yaml-marshal") /\
  (forall yamlData, yaml_Marshal E settings = inr yamlData ->
     (exists e, sf_createTemp o = inl e) \/
     is_dir (fs w) (filepath_Dir configPath) = false ->
     exists err,
       SaveYAMLConfig E o configPath settings w = (Ret (Some err), w) /\
       errors.CategoryOf err = Some CategoryFileIO /\
       errors.ContextOf "operation" err = Some "create-temp-file" /\
       errors.ContextOf "dir" err = Some (path_string (filepath_Dir configPath))).
Proof.
  split.
  - intros e He. unfold SaveYAMLConfig. rewrite He. by eexists.
  - intros yamlData Hy Hfail. unfold SaveYAMLConfig, bind, os_CreateTemp.
    rewrite Hy. destruct (sf_createTemp o) as [e|rnd]; [by eexists|].
    destruct Hfail as [[e He]|Hdir]; [done|]. rewrite Hdir. by eexists.
Qed.

Lemma temp_file_cleanup (m : gmap path File) (tmp : path) (g : File -> File)
  (x : File) :
  m !! tmp = None -> delete tmp (alter g tmp (<[tmp := x]> m)) = m.
Proof.
  intros H. apply map_eq; intros p. destruct (decide (tmp = p)) as [<-|Hne].
  - by rewrite lookup_delete_eq.
  - by rewrite lookup_delete_ne, lookup_alter_ne, lookup_insert_ne.
Qed.

(** X9. A save in which nothing fails ends with the rename, and changes
    one thing: the destination is a file with the marshalled settings and
    the mode 0600 of the temporary file, whatever its mode was before.
    The temporary file is gone with the rename, the deferred removal finds
    nothing and logs nothing, and every other file and directory is as
    before. *)
Theorem SaveYAMLConfig_rename_path (E : Env) (o : SaveFaults) (configPath : path)
  (settings : Settings.t) (yamlData rnd : string) (w : World) :
  yaml_Marshal E settings = inr yamlData ->
  sf_createTemp o = inr rnd ->
  is_dir (fs w) (filepath_Dir configPath) = true ->
  files (fs w) !! temp_of configPath rnd = None ->
  temp_of configPath rnd ≠ configPath ->
  sf_write o = None -> sf_close o = None -> sf_rename o = None ->
  SaveYAMLConfig E o configPath settings w
  = (Ret None,
     set_fs (mkFS (<[configPath := mkFile yamlData perm_0o600]> (files (fs w)))
               (dirs (fs w))) w).
Proof.
  intros Hy Hct Hdir Hfree Hne Hw Hc Hr.
  unfold SaveYAMLConfig, bind, os_CreateTemp. rewrite Hy, Hct.
  change (temp_name (filepath_Dir configPath) "config-*.yaml" rnd)
    with (temp_of configPath rnd).
  set (tmp := temp_of configPath rnd) in *.
  rewrite Hdir, Hfree. cbn [negb].
  unfold defer, SaveYAMLConfig_install, bind, File_Write, File_Close, os_Rename, ret.
  rewrite Hw, Hc, Hr. cbn [fmap option_fmap option_map].
  cbn [fs set_fs files dirs]. rewrite lookup_alter_eq, lookup_insert_eq.
  cbn [fmap option_fmap option_map].
  unfold remove_temp, bind, os_Remove. cbn [fs set_fs files dirs].
  rewrite lookup_insert_ne by (intros Heq; by apply Hne).
  rewrite lookup_delete_eq. cbn [os_IsNotExist negb snd ret].
  by rewrite temp_file_cleanup.
Qed.

Lemma SaveYAMLConfig_rename_path_witness :
  SaveYAMLConfig demo_Env save_ok config_yaml installed_settings loaded_World
  = (Ret None,
     set_fs (mkFS (<[config_yaml := mkFile "locale: en-uk" perm_0o600]>
                     (files (fs loaded_World)))
               (dirs (fs loaded_World))) loaded_World).
Proof.
  apply (SaveYAMLConfig_rename_path demo_Env save_ok config_yaml installed_settings
           "locale: en-uk" "1" loaded_World); try reflexivity.
  discriminate.
Defined.

Lemma remove_temp_restores (w : World) (tmp : path) (g : File -> File) (x : File) :
  files (fs w) !! tmp = None ->
  let w1 := set_fs (mkFS (<[tmp := x]> (files (fs w))) (dirs (fs w))) w in
  snd (remove_temp None tmp
         (set_fs (mkFS (alter g tmp (files (fs w1))) (dirs (fs w1))) w1)) = w.
Proof.
  intros Hfree w1. unfold remove_temp, bind, os_Remove, w1.
  cbn [fs set_fs files dirs]. rewrite lookup_alter_eq, lookup_insert_eq.
  cbn [fmap option_fmap option_map snd ret].
  rewrite temp_file_cleanup by done. by destruct w as [? ? ? ? ? [? ?] ? ?].
Qed.

(** X10. A save whose write or close fails leaves no trace when the
    deferred removal works: the temporary file is removed again and the
    state is exactly the state before the call.  The error carries the
    category FileIO. *)
Theorem SaveYAMLConfig_failed_write_leaves_no_trace (E : Env) (o : SaveFaults)
  (configPath : path) (settings : Settings.t) (yamlData rnd : string) (w : World) :
  yaml_Marshal E settings = inr yamlData ->
  sf_createTemp o = inr rnd ->
  is_dir (fs w) (filepath_Dir configPath) = true ->
  files (fs w) !! temp_of configPath rnd = None ->
  is_Some (sf_write o) \/ is_Some (sf_close o) ->
  sf_remove o = None ->
  exists err,
    SaveYAMLConfig E o configPath settings w = (Ret (Some err), w) /\
    errors.CategoryOf err = Some CategoryFileIO /\
    errors.ContextOf "operation" err
    = Some (if sf_write o is Some _ then "write-temp-file" else "close-temp-file").
Proof.
  intros Hy Hct Hdir Hfree Hfail Hrm.
  unfold SaveYAMLConfig, bind, os_CreateTemp. rewrite Hy, Hct.
  change (temp_name (filepath_Dir configPath) "config-*.yaml" rnd)
    with (temp_of configPath rnd).
  set (tmp := temp_of configPath rnd) in *.
  rewrite Hdir, Hfree. cbn [negb].
  unfold defer, SaveYAMLConfig_install, bind, File_Write, File_Close, ret.
  destruct (sf_write o) as [[n e]|]; cbn [fmap option_fmap option_map snd].
  - eexists. split.
    { rewrite Hrm. by rewrite (remove_temp_restores w tmp _ _ Hfree). }
    by split.
  - destruct (sf_close o) as [e|].
    + eexists. split.
      { rewrite Hrm. by rewrite (remove_temp_restores w tmp _ _ Hfree). }
      by split.
    + destruct Hfail as [[x Hx]|[x Hx]]; discriminate.
Qed.

Lemma SaveYAMLConfig_failed_write_leaves_no_trace_witness :
  exists err,
    SaveYAMLConfig demo_Env write_fails config_yaml installed_settings loaded_World
    = (Ret (Some err), loaded_World) /\
    errors.CategoryOf err = Some CategoryFileIO /\
    errors.ContextOf "operation" err = Some "write-temp-file".
Proof.
  apply (SaveYAMLConfig_failed_write_leaves_no_trace demo_Env write_fails config_yaml
           installed_settings "locale: en-uk" "1" loaded_World); try reflexivity.
  left. by eexists.
Defined.

(** When [SaveYAMLConfig] returns no error, the settings were marshalled
    and the destination holds the result. *)
Lemma SaveYAMLConfig_success_data (E : Env) (o : SaveFaults) (configPath : path)
  (settings : Settings.t) (w w' : World) :
  moveFile_contract E ->
  (forall rnd, sf_createTemp o = inr rnd -> temp_of configPath rnd ≠ configPath) ->
  SaveYAMLConfig E o configPath settings w = (Ret None, w') ->
  exists yamlData,
    yaml_Marshal E settings = inr yamlData /\
    f_data <$> files (fs w') !! configPath = Some yamlData.
Proof.
  intros Hmove Hne. unfold SaveYAMLConfig, bind, os_CreateTemp.
  destruct (yaml_Marshal E settings) as [e|yamlData]; [done|].
  destruct (sf_createTemp o) as [e|rnd] eqn:Hct; [done|].
  specialize (Hne rnd eq_refl).
  change (temp_name (filepath_Dir configPath) "config-*.yaml" rnd)
    with (temp_of configPath rnd).
  set (tmp := temp_of configPath rnd) in *.
  destruct (negb (is_dir (fs w) (filepath_Dir configPath))); [done|].
  destruct (files (fs w) !! tmp) eqn:Hfree; [done|].
  set (w1 := set_fs _ w). unfold defer.
  destruct (SaveYAMLConfig_install E o configPath tmp yamlData w1) as [r w2] eqn:Hrun.
  assert (Htmp : files (fs w1) !! tmp = Some (mkFile EmptyString perm_0o600)).
  { unfold w1. simpl. by rewrite lookup_insert_eq. }
  destruct (SaveYAMLConfig_install_cases E o configPath tmp yamlData _ w1 w2 r
              Hmove Hne Htmp Hrun) as (_ & _ & Hdata & _).
  destruct r as [[err|]| | |]; try done. intros [= <-].
  exists yamlData. split; [done|].
  rewrite remove_temp_other by done. by apply Hdata.
Qed.

(** X11. A nil return of [SaveSettings] means the document is written:
    the settings were marshalled, the file the search found holds the
    result for the live settings, and the success line is the last line
    logged. *)
Theorem SaveSettings_success_persists_live_settings (E : Env) (o : SaveFaults)
  (w w' : World) (live : Settings.t) (configPath : path) :
  moveFile_contract E ->
  settingsInstance w = Some live ->
  FindConfigFile E (SaveSettings_entered w) = inr configPath ->
  (forall rnd, sf_createTemp o = inr rnd -> temp_of configPath rnd ≠ configPath) ->
  SaveSettings E o w = (Ret None, w') ->
  exists yamlData,
    yaml_Marshal E live = inr yamlData /\
    f_data <$> files (fs w') !! configPath = Some yamlData /\
    last (output w') = Some ("Settings saved successfully to %s", ArgPath configPath).
Proof.
  intros Hmove Hlive Hfind Hne Hrun.
  destruct (writer (settingsMutex w)) eqn:Hw.
  { by rewrite SaveSettings_blocked in Hrun. }
  rewrite SaveSettings_run in Hrun by done. unfold defer in Hrun.
  destruct (writer (speciesListMutex w)) eqn:Hs.
  { by rewrite (SaveSettings_locked_species_blocked E o _ live) in Hrun. }
  rewrite (SaveSettings_locked_run E o _ live) in Hrun by done.
  rewrite Hfind, SaveSettings_copy_eq in Hrun.
  destruct (SaveYAMLConfig E o configPath live (SaveSettings_entered w))
    as [r w2] eqn:Hsave.
  destruct r as [[err|]| | |]; try done. injection Hrun as <-.
  destruct (SaveYAMLConfig_success_data E o configPath live _ w2 Hmove Hne Hsave)
    as (yamlData & Hy & Hdata).
  exists yamlData. split; [done|]. split; [exact Hdata|].
  cbn [RUnlock output set_settingsMutex set_output]. apply last_snoc.
Qed.

Lemma SaveSettings_success_persists_live_settings_witness :
  exists yamlData,
    yaml_Marshal demo_Env installed_settings = inr yamlData /\
    f_data <$> files (fs (snd (SaveSettings demo_Env save_ok loaded_World))) !! config_yaml
    = Some yamlData /\
    last (output (snd (SaveSettings demo_Env save_ok loaded_World)))
    = Some ("Settings saved successfully to %s", ArgPath config_yaml).
Proof.
  apply (SaveSettings_success_persists_live_settings demo_Env save_ok loaded_World
           _ installed_settings config_yaml).
  - exact copy_then_delete_contract.
  - reflexivity.
  - reflexivity.
  - intros rnd _. unfold temp_of, temp_name, config_yaml, filepath_Join. simpl.
    discriminate.
  - vm_compute. reflexivity.
Defined.


(** ** Locks, continued *)

Lemma never_blocks_step {A} (c : M A) :
  (forall w, fst (c w) ≠ Block) -> never_blocks c.
Proof. intros H w r w' Hc. specialize (H w). by rewrite Hc in H. Qed.

Lemma never_blocks_ret {A} (a : A) : never_blocks (ret a).
Proof. by apply never_blocks_step. Qed.

Lemma never_blocks_bind {A B} (c : M A) (k : A -> M B) :
  never_blocks c -> (forall a, never_blocks (k a)) -> never_blocks (bind c k).
Proof.
  intros Hc Hk w r w'. unfold bind.
  destruct (c w) as [[a| | |] w1] eqn:Hrun; try by intros [= <- _].
  - apply Hk.
  - by apply Hc in Hrun.
Qed.

Lemma never_blocks_defer {A} (d : World -> World) (c : M A) :
  never_blocks c -> never_blocks (defer d c).
Proof.
  intros Hc w r w'. unfold defer.
  destruct (c w) as [[a| | |] w1] eqn:Hrun; try by intros [= <- _].
  by apply Hc in Hrun.
Qed.

Ltac never_blocks_prim :=
  apply never_blocks_step; intros ?;
  repeat (simpl; unfold ret, get, modify, panic, log_Printf, log_Fatalf; case_match);
  done.

Create HintDb noblock.

Ltac never_blocks_tac :=
  repeat first
    [ solve [auto with noblock]
    | apply never_blocks_ret
    | apply never_blocks_bind; [|intros ?]
    | apply never_blocks_defer
    | match goal with
      | |- never_blocks (match ?x with _ => _ end) => destruct x
      | |- never_blocks (if ?x then _ else _) => destruct x
      end ].

Lemma add_config_paths_never_blocks ps : never_blocks (add_config_paths ps).
Proof. apply never_blocks_step. intros w. by rewrite add_config_paths_run. Qed.

Lemma classify_messages_never_blocks err msgs s :
  never_blocks (classify_messages err msgs s).
Proof. apply never_blocks_step. intros w. by rewrite classify_messages_run. Qed.

Lemma GenerateRandomSecret_never_blocks src : never_blocks (GenerateRandomSecret src).
Proof.
  apply never_blocks_step. intros w.
  by destruct (GenerateRandomSecret_run src w) as (w' & -> & _).
Qed.

#[local] Hint Resolve add_config_paths_never_blocks classify_messages_never_blocks
  GenerateRandomSecret_never_blocks : noblock.

Lemma getDefaultConfig_never_blocks E : never_blocks (getDefaultConfig E).
Proof. unfold getDefaultConfig. destruct (configFiles E !! _); never_blocks_prim. Qed.

Lemma os_MkdirAll_never_blocks fault p perm : never_blocks (os_MkdirAll fault p perm).
Proof. unfold os_MkdirAll. never_blocks_prim. Qed.

Lemma os_WriteFile_never_blocks fault name data perm :
  never_blocks (os_WriteFile fault name data perm).
Proof. unfold os_WriteFile. never_blocks_prim. Qed.

Lemma viper_ReadInConfig_never_blocks r : never_blocks (viper_ReadInConfig r).
Proof. unfold viper_ReadInConfig. destruct r; never_blocks_prim. Qed.

#[local] Hint Resolve getDefaultConfig_never_blocks os_MkdirAll_never_blocks
  os_WriteFile_never_blocks viper_ReadInConfig_never_blocks : noblock.

Lemma createDefaultConfig_never_blocks E o : never_blocks (createDefaultConfig E o).
Proof.
  unfold createDefaultConfig. never_blocks_tac.
  all: try (unfold viper_GetString, viper_Set); never_blocks_prim.
Qed.

#[local] Hint Resolve createDefaultConfig_never_blocks : noblock.

Lemma initViper_never_blocks E o : never_blocks (initViper E o).
Proof.
  unfold initViper. never_blocks_tac.
  all: try (unfold viper_SetConfigName, viper_SetConfigType); never_blocks_prim.
Qed.

#[local] Hint Resolve initViper_never_blocks : noblock.

Lemma Load_locked_never_blocks E o : never_blocks (Load_locked E o).
Proof.
  unfold Load_locked. never_blocks_tac. all: never_blocks_prim.
Qed.

(** X13. [Load] waits exactly when the settings lock is not free, and
    never for anything else: the code under the lock takes no other lock.
    The lock is released when [Load] returns and when it panics; it is
    still held when the process exits under it; the species lock and the
    once flag are never touched. *)
Theorem Load_lock_discipline (E : Env) (o : LoadFaults) (w w' : World)
  (r : Result (option Settings.t * option error)) :
  Load E o w = (r, w') ->
  (r = Block <-> settingsMutex w ≠ mkRWMutex 0 false) /\
  match r with
  | Ret _ | Panic _ => settingsMutex w' = mkRWMutex 0 false
  | Exit _ => settingsMutex w' = mkRWMutex 0 true
  | Block => settingsMutex w' = settingsMutex w
  end /\
  speciesListMutex w' = speciesListMutex w /\ once w' = once w.
Proof.
  intros Hrun.
  destruct (Load_bookkeeping E o w w' r Hrun) as (_ & Honce & Hspecies & _).
  split; [|split; [|done]].
  - destruct (decide (settingsMutex w = mkRWMutex 0 false)) as [Hfree|Hheld].
    + split; [|done]. intros ->. rewrite Load_run in Hrun by done.
      apply never_blocks_defer in Hrun; [done|apply Load_locked_never_blocks].
    + split; [done|]. intros _. rewrite Load_blocked in Hrun by done.
      by injection Hrun as <- _.
  - destruct (decide (settingsMutex w = mkRWMutex 0 false)) as [Hfree|Hheld].
    + rewrite Load_run in Hrun by done. unfold defer in Hrun.
      destruct (Load_locked E o (Load_entered w)) as [rl wl] eqn:Hl.
      pose proof (Load_locked_bookkeeping E o _ _ _ Hl) as Hb.
      injection Hb as _ Hm _ _. cbn in Hm.
      destruct rl; injection Hrun as <- <-; cbn; try by rewrite Hm.
      by apply Load_locked_never_blocks in Hl.
    + rewrite Load_blocked in Hrun by done. by injection Hrun as <- <-.
Qed.

Lemma Load_lock_discipline_witness :
  settingsMutex loaded_World = mkRWMutex 0 false /\
  speciesListMutex loaded_World = speciesListMutex fresh_World /\
  once loaded_World = once fresh_World.
Proof.
  destruct (Load_lock_discipline demo_Env no_document fresh_World loaded_World
              (Ret (Some installed_settings, None))) as (_ & Hm & Hrest).
  - vm_compute. reflexivity.
  - exact (conj Hm Hrest).
Defined.

(** ** The store, continued *)


(** X15. After [Load] has returned, [GetSettings] returns what [Load]
    installed: the settings of a successful load, and after a failed load
    the instance that was installed before it. *)
Theorem Load_then_GetSettings (E : Env) (o : LoadFaults) (w w1 : World)
  (res : option Settings.t * option error) :
  Load E o w = (Ret res, w1) ->
  GetSettings w1
  = (Ret (match res with
          | (Some s, _) => Some s
          | (None, _) => settingsInstance w
          end), w1).
Proof.
  intros Hrun.
  pose proof (Load_instance E o w w1 _ Hrun) as Hinst.
  destruct (Load_bookkeeping E o w w1 _ Hrun) as (_ & _ & _ & Hm).
  rewrite GetSettings_run by (rewrite Hm; [done|by eexists]).
  unfold install_outcome in Hinst.
  destruct res as [[s|] [e|]]; try done; by rewrite Hinst.
Qed.

Lemma Load_then_GetSettings_witness :
  GetSettings loaded_World = (Ret (Some installed_settings), loaded_World).
Proof.
  apply (Load_then_GetSettings demo_Env no_document fresh_World loaded_World
           (Some installed_settings, None)).
  vm_compute. reflexivity.
Defined.

Lemma Setting_after_once (E : Env) (o : LoadFaults) (w : World) :
  once w = true -> writer (settingsMutex w) = false ->
  Setting E o w = (Ret (settingsInstance w), w).
Proof. intros Ho Hw. rewrite Setting_run, Ho. by apply GetSettings_run. Qed.



(** ** The loader, continued *)

Lemma createDefaultConfig_no_path (E : Env) (o : LoadFaults) (w : World) :
  GetDefaultConfigPaths E w = inr [] ->
  createDefaultConfig E o w = (Panic "index out of range [0] with length 0", w).
Proof. intros Hp. unfold createDefaultConfig, bind, get. by rewrite Hp. Qed.

(** X17. [createDefaultConfig] takes the first search path without looking
    at the length of the list: with an empty list it panics, and when the
    embedded template cannot be read the process exits; either way no
    secret has been generated and nothing has been written. *)
Theorem createDefaultConfig_aborts_before_writing (E : Env) (o : LoadFaults)
  (w : World) :
  (GetDefaultConfigPaths E w = inr [] ->
   createDefaultConfig E o w = (Panic "index out of range [0] with length 0", w)) /\
  (forall first rest, GetDefaultConfigPaths E w = inr (first :: rest) ->
   configFiles E !! "config.yaml" = None ->
   exists w',
     createDefaultConfig E o w = (Exit 1, w') /\
     fs w' = fs w /\ viper w' = viper w /\
     output w' = output w ++ [("Error reading config file: %v",
                               ArgError (PathError "open" ["config.yaml"] ENOENT))]).
Proof.
  split; [apply createDefaultConfig_no_path|].
  - intros first rest Hp Ht. unfold createDefaultConfig, bind, get, getDefaultConfig.
    rewrite Hp. cbn. rewrite Ht. by eexists.
Qed.

(** X18. The first call of [Setting] in a process whose list of search
    paths is empty panics in the load, and the panic uses the once up:
    the settings lock has been released, nothing is installed or written,
    and every later call returns nil without trying to load again. *)
Theorem Setting_panic_spends_the_once (E : Env) (o : LoadFaults) (w : World) :
  (forall x, GetDefaultConfigPaths E x = inr []) ->
  read_not_found o = true ->
  once w = false -> settingsInstance w = None ->
  settingsMutex w = mkRWMutex 0 false ->
  exists w',
    Setting E o w = (Panic "index out of range [0] with length 0", w') /\
    once w' = true /\ settingsInstance w' = None /\
    settingsMutex w' = mkRWMutex 0 false /\ fs w' = fs w /\
    loadCalls w' = S (loadCalls w) /\
    forall o', Setting E o' w' = (Ret None, w').
Proof.
  intros Hp Hnf Ho Hinst Hfree. unfold read_not_found in Hnf.
  rewrite Setting_run, Ho, Hinst, Load_run by done.
  unfold defer, Load_locked, bind. rewrite (initViper_run E o _ [] Hp).
  destruct (lf_read o) as [e|cfg]; [|done]. rewrite Hnf.
  rewrite createDefaultConfig_no_path by apply Hp.
  eexists. split; [reflexivity|]. do 5 (split; [done|]).
  intros o'. rewrite Setting_after_once by done. cbn. by rewrite Hinst.
Qed.

Lemma Setting_panic_spends_the_once_witness :
  exists w',
    Setting no_search_path_Env no_document fresh_World
    = (Panic "index out of range [0] with length 0", w') /\
    once w' = true /\ settingsInstance w' = None /\
    settingsMutex w' = mkRWMutex 0 false /\ fs w' = fs fresh_World /\
    loadCalls w' = S (loadCalls fresh_World) /\
    forall o', Setting no_search_path_Env o' w' = (Ret None, w').
Proof.
  apply (Setting_panic_spends_the_once no_search_path_Env no_document fresh_World);
    reflexivity.
Defined.

Lemma Viper_GetString_override (v : Viper) (key value : string) :
  Viper_GetString
    (mkViper (v_configName v) (v_configType v) (v_configPaths v)
       (<[key := value]> (v_override v)) (v_config v) (v_defaults v)) key = value.
Proof. unfold Viper_GetString. simpl. by rewrite lookup_insert_eq. Qed.



(** ** Error categories *)

Lemma Load_locked_error_categories (E : Env) (o : LoadFaults) (w w' : World)
  (x : option Settings.t) (err : error) :
  Load_locked E o w = (Ret (x, Some err), w') ->
  (errors.CategoryOf err = Some CategoryConfiguration /\
   (errors.ContextOf "operation" err = Some "init-viper" \/
    errors.ContextOf "operation" err = Some "unmarshal-config")) \/
  (errors.CategoryOf err = Some CategoryValidation /\
   errors.ContextOf "component" err = Some "settings").
Proof.
  unfold Load_locked, bind.
  destruct (initViper E o w) as [[[e|]| | |] w1]; try done.
  { intros [= _ <- _]. left. split; [done|by left]. }
  unfold get.
  destruct (viper_Unmarshal E (viper w1) Settings.zero) as [e|s].
  { intros [= _ <- _]. left. split; [done|by right]. }
  destruct (ValidateSettings E s) as [s' [verr|]]; [|done].
  destruct (errors.AsValidationError verr) as [msgs|].
  - rewrite classify_messages_run.
    destruct (first_fatal msgs) as [m|]; [|done].
    intros [= _ <- _]. right. by repeat split.
  - intros [= _ <- _]. right. by repeat split.
Qed.

(** X20. Every error [Load] returns is categorised: it carries the
    category Configuration, with the operation [init-viper] or
    [unmarshal-config], or the category Validation, with the component
    [settings].  In particular a file-system failure met while the default
    document is written reaches the caller of [Load] as a Configuration
    error. *)
Theorem Load_error_categories (E : Env) (o : LoadFaults) (w w' : World)
  (x : option Settings.t) (err : error) :
  Load E o w = (Ret (x, Some err), w') ->
  (errors.CategoryOf err = Some CategoryConfiguration /\
   (errors.ContextOf "operation" err = Some "init-viper" \/
    errors.ContextOf "operation" err = Some "unmarshal-config")) \/
  (errors.CategoryOf err = Some CategoryValidation /\
   errors.ContextOf "component" err = Some "settings").
Proof.
  intros Hrun.
  destruct (decide (settingsMutex w = mkRWMutex 0 false)) as [Hfree|Hheld];
    [|by rewrite Load_blocked in Hrun].
  rewrite Load_run in Hrun by done. unfold defer in Hrun.
  destruct (Load_locked E o (Load_entered w)) as [[res| | |] wl] eqn:Hl; try done.
  injection Hrun as -> _. by eapply Load_locked_error_categories.
Qed.

Lemma Load_error_categories_witness :
  (errors.CategoryOf (fatal_validation_error (ValidationError [locale_fatal]) locale_fatal)
   = Some CategoryConfiguration /\
   (errors.ContextOf "operation"
      (fatal_validation_error (ValidationError [locale_fatal]) locale_fatal)
    = Some "init-viper" \/
    errors.ContextOf "operation"
      (fatal_validation_error (ValidationError [locale_fatal]) locale_fatal)
    = Some "unmarshal-config")) \/
  (errors.CategoryOf (fatal_validation_error (ValidationError [locale_fatal]) locale_fatal)
   = Some CategoryValidation /\
   errors.ContextOf "component"
     (fatal_validation_error (ValidationError [locale_fatal]) locale_fatal)
   = Some "settings").
Proof.
  apply (Load_error_categories demo_Env empty_locale fresh_World
           (snd (Load demo_Env empty_locale fresh_World)) None).
  vm_compute. reflexivity.
Defined.

(** X21. Every error [SaveSettings] returns carries the category FileIO,
    with the operation [find-config-file] or [save-yaml-config]: a
    failure to marshal, which [SaveYAMLConfig] reports as a Configuration
    error, is wrapped like any other failure of the save. *)
Theorem SaveSettings_error_categories (E : Env) (o : SaveFaults) (w w' : World)
  (err : error) :
  SaveSettings E o w = (Ret (Some err), w') ->
  errors.CategoryOf err = Some CategoryFileIO /\
  (errors.ContextOf "operation" err = Some "find-config-file" \/
   errors.ContextOf "operation" err = Some "save-yaml-config").
Proof.
  intros Hrun.
  destruct (writer (settingsMutex w)) eqn:Hw.
  { by rewrite SaveSettings_blocked in Hrun. }
  rewrite SaveSettings_run in Hrun by done. unfold defer in Hrun.
  destruct (settingsInstance w) as [live|] eqn:Hlive;
    [|by rewrite SaveSettings_locked_nil in Hrun].
  destruct (writer (speciesListMutex w)) eqn:Hs.
  { by rewrite (SaveSettings_locked_species_blocked E o _ live) in Hrun. }
  rewrite (SaveSettings_locked_run E o _ live) in Hrun by done.
  destruct (FindConfigFile E (SaveSettings_entered w)) as [e|configPath].
  { injection Hrun as <- _. split; [done|by left]. }
  destruct (SaveYAMLConfig E o configPath (SaveSettings_copy live) (SaveSettings_entered w))
    as [[[e|]| | |] w2]; try done.
  injection Hrun as <- _. split; [done|by right].
Qed.

(** X22. Every error [SaveYAMLConfig] returns is categorised:
    Configuration exactly when the settings could not be marshalled,
    FileIO for every failure that follows. *)
Theorem SaveYAMLConfig_error_categories (E : Env) (o : SaveFaults)
  (configPath : path) (settings : Settings.t) (w w' : World) (err : error) :
  SaveYAMLConfig E o configPath settings w = (Ret (Some err), w') ->
  match yaml_Marshal E settings with
  | inl cause =>
      errors.CategoryOf err = Some CategoryConfiguration /\
      err = EnhancedError cause (Some CategoryConfiguration)
              [("operation", "yaml-marshal")] /\ w' = w
  | inr _ => errors.CategoryOf err = Some CategoryFileIO
  end.
Proof.
  unfold SaveYAMLConfig, bind, defer, SaveYAMLConfig_install, bind, os_CreateTemp,
    File_Write, File_Close, os_Rename, run_moveFile, ret.
  intros Hrun. repeat (case_match; simplify_eq/=); done.
Qed.

Lemma SaveSettings_error_categories_witness :
  let err :=
    save_failure config_yaml
      (EnhancedError (PathError "write" [] ENOSPC) (Some CategoryFileIO)
         [("operation", "write-temp-file")]) in
  errors.CategoryOf err = Some CategoryFileIO /\
  (errors.ContextOf "operation" err = Some "find-config-file" \/
   errors.ContextOf "operation" err = Some "save-yaml-config").
Proof.
  intros err.
  apply (SaveSettings_error_categories demo_Env write_fails loaded_World
           (snd (SaveSettings demo_Env write_fails loaded_World))).
  vm_compute. reflexivity.
Defined.

Lemma SaveYAMLConfig_error_categories_witness :
  errors.CategoryOf
    (EnhancedError (PathError "write" [] ENOSPC) (Some CategoryFileIO)
       [("operation", "write-temp-file")]) = Some CategoryFileIO.
Proof.
  refine (SaveYAMLConfig_error_categories demo_Env write_fails config_yaml
            installed_settings loaded_World
            (snd (SaveYAMLConfig demo_Env write_fails config_yaml installed_settings
                    loaded_World)) _ _).
  vm_compute. reflexivity.
Defined.

(** ** What a load writes *)

Lemma initViper_reads_only (E : Env) (o : LoadFaults) :
  read_not_found o = false -> preserves fs (initViper E o).
Proof.
  intros Hnf w r w'. unfold read_not_found in Hnf.
  unfold initViper, bind, viper_SetConfigName, viper_SetConfigType, modify, get.
  cbn beta iota.
  destruct (GetDefaultConfigPaths E _) as [e|paths]; [by intros [= _ <-]|].
  rewrite add_config_paths_run. unfold viper_ReadInConfig, bind, modify, ret.
  destruct (lf_read o) as [e|cfg].
  - rewrite Hnf. intros [= _ <-]. cbn. by rewrite add_paths_fs.
  - intros [= _ <-]. cbn. by rewrite add_paths_fs.
Qed.

(** X23. [Load] writes to the file system only to put a default document
    where none was found: when the document was read, or could not be read
    for another reason, the files and directories after the call are those
    before it, however the call ends. *)
Theorem Load_reads_only (E : Env) (o : LoadFaults) (w w' : World)
  (r : Result (option Settings.t * option error)) :
  read_not_found o = false ->
  Load E o w = (r, w') -> fs w' = fs w.
Proof.
  intros Hnf Hrun.
  destruct (decide (settingsMutex w = mkRWMutex 0 false)) as [Hfree|Hheld];
    [|rewrite Load_blocked in Hrun by done; by injection Hrun as _ <-].
  rewrite Load_run in Hrun by done.
  assert (Hl : preserves fs (Load_locked E o)).
  { unfold Load_locked. apply preserves_bind; [by apply initViper_reads_only|].
    intros [e|]; [apply preserves_ret|].
    apply preserves_bind; [apply preserves_get|]. intros v.
    destruct (viper_Unmarshal E v Settings.zero) as [e|s]; [apply preserves_ret|].
    apply preserves_bind.
    - destruct (ValidateSettings E s) as [s' [verr|]]; [|apply preserves_ret].
      destruct (errors.AsValidationError verr) as [msgs|]; [|apply preserves_ret].
      apply preserves_step. intros w0. by rewrite classify_messages_run.
    - intros [s' [e|]]; [apply preserves_ret|].
      apply preserves_bind; [by apply preserves_modify|]. intros _.
      apply preserves_bind; [apply preserves_get|]. intros x. apply preserves_ret. }
  apply (preserves_defer fs (Unlock settingsMutex set_settingsMutex)) in Hl; [|done].
  by apply Hl in Hrun.
Qed.

Lemma Load_reads_only_witness :
  fs (snd (Load demo_Env unsupported_locale fresh_World)) = fs fresh_World.
Proof.
  apply (Load_reads_only demo_Env unsupported_locale fresh_World _
           (fst (Load demo_Env unsupported_locale fresh_World))).
  - reflexivity.
  - apply surjective_pairing.
Defined.
